(** * q1: tangent-line extrapolation of a quadratic

    A shallow embedding of [q1.c] and the properties of its five
    functions: [func], [funcPrime], [extrapolate], [writeExtrapolation]
    and [main].

    The C program computes on [double].  The three arithmetic functions
    are written once over an interface of scalars and read at two
    instances: the binary64 floats of the machine (the program as it
    runs) and the rationals (the same expressions in exact arithmetic). *)

From Stdlib Require Import ZArith NArith QArith Qabs Floats.
From Stdlib Require Import List Sorted String Ascii DecimalString Bool Lia.
Import ListNotations.

Set Warnings "-inexact-float".

(** ** Scalars *)

(** What the computation of a row applies to a [double]: sum, difference,
    product and the literal [2.0]. *)
Class Scalar (T : Type) := {
  s_add : T -> T -> T;
  s_sub : T -> T -> T;
  s_mul : T -> T -> T;
  s_two : T
}.

Declare Scope scalar_scope.
Delimit Scope scalar_scope with sc.
Infix "+" := s_add : scalar_scope.
Infix "-" := s_sub : scalar_scope.
Infix "*" := s_mul : scalar_scope.

(** IEEE 754 binary64, round to nearest even, each operation rounded to
    [double]: C's arithmetic where [FLT_EVAL_METHOD] is 0, as with gcc on
    x86-64. *)
#[export] Instance Scalar_double : Scalar float := {
  s_add := PrimFloat.add;
  s_sub := PrimFloat.sub;
  s_mul := PrimFloat.mul;
  s_two := 2%float
}.

(** Exact rational arithmetic. *)
#[export] Instance Scalar_Q : Scalar Q := {
  s_add := Qplus;
  s_sub := Qminus;
  s_mul := Qmult;
  s_two := 2%Q
}.

(** ** The arithmetic functions *)

Section Arithmetic.
Context {T : Type} `{Scalar T}.
Local Open Scope scalar_scope.

(** [double func(double a, double b, double c, double x)] *)
Definition func (a b c x : T) : T :=
  let fval := a in
  let fval := fval * x + b in
  let fval := fval * x + c in
  fval.

(** [double funcPrime(double a, double b, double x)] *)
Definition funcPrime (a b x : T) : T :=
  let slopeval := s_two * a in
  let slopeval := slopeval * x + b in
  slopeval.

(** [double extrapolate(double a, double b, double c, double x, double h)] *)
Definition extrapolate (a b c x h : T) : T :=
  let slope := funcPrime a b (x + h) in
  let vchange := h * slope in
  let estimate := func a b c x + vchange in
  estimate.

(** The error of the row at offset [h]: [direct - approx] in
    [writeExtrapolation], for the [funcval] and the [approximation] that
    [main] passes. *)
Definition row_error (a b c x h : T) : T :=
  let approximation := extrapolate a b c x h in
  let funcval := func a b c (x + h) in
  funcval - approximation.
End Arithmetic.

(** ** Text *)

Local Open Scope string_scope.
Local Open Scope list_scope.

Definition newline : ascii := "010"%char.

(** A C string literal: the two characters backslash, n stand for a
    newline.  The literals of [q1.c] use no other escape. *)
Fixpoint C_str (s : string) : string :=
  match s with
  | EmptyString => EmptyString
  | String c r =>
      match c, r with
      | "\"%char, String "n"%char r' => String newline (C_str r')
      | _, _ => String c (C_str r)
      end
  end.

Definition is_digit (c : ascii) : bool :=
  (("0" <=? c) && (c <=? "9"))%char.

Definition digit_val (c : ascii) : N := N_of_ascii c - 48.

Definition digit_char (d : N) : ascii := ascii_of_N (48 + d).

Fixpoint spaces (n : nat) : string :=
  match n with
  | O => ""
  | S n' => String " " (spaces n')
  end.

(** ** printf: the conversions the program uses *)

(** [printf] is the C library's.  The model follows the C standard for
    ordinary characters and for the conversion [%W.Pf] of a double; the
    decimal numeral is the exact binary value rounded to [P] decimals,
    ties to even. *)

(** A format is a sequence of ordinary characters and of conversions
    [%W.Pf] (minimum field width [W], precision [P]). *)
Inductive directive : Type :=
| DChar (c : ascii)
| DFixed (width prec : nat).

Inductive fmt_state : Type :=
| InText
| InWidth (w : nat)
| InPrec (w p : nat).

Fixpoint parse_format (st : fmt_state) (s : string) : option (list directive) :=
  match s with
  | EmptyString =>
      match st with
      | InText => Some []
      | _ => None
      end
  | String c r =>
      match st with
      | InText =>
          if (c =? "%")%char then parse_format (InWidth 0) r
          else option_map (cons (DChar c)) (parse_format InText r)
      | InWidth w =>
          if is_digit c then parse_format (InWidth (10 * w + N.to_nat (digit_val c))) r
          else if (c =? ".")%char then parse_format (InPrec w 0) r
          else if (c =? "f")%char then option_map (cons (DFixed w 6)) (parse_format InText r)
          else None
      | InPrec w p =>
          if is_digit c then parse_format (InPrec w (10 * p + N.to_nat (digit_val c))) r
          else if (c =? "f")%char then option_map (cons (DFixed w p)) (parse_format InText r)
          else None
      end
  end.

(** [n / d] rounded to the nearest integer, ties to the even one: the
    rounding of a decimal conversion in the default rounding mode. *)
Definition round_half_even (n d : N) : N :=
  let q := (n / d)%N in
  let r := (n mod d)%N in
  match (2 * r ?= d)%N with
  | Lt => q
  | Gt => (q + 1)%N
  | Eq => if N.even q then q else (q + 1)%N
  end.

(** The magnitude [m * 2^e], times [10^p], as a rounded integer. *)
Definition scaled (p : nat) (m : positive) (e : Z) : N :=
  let n := (Npos m * 10 ^ N.of_nat p)%N in
  match e with
  | Z0 => n
  | Zpos k => (n * 2 ^ Npos k)%N
  | Zneg k => round_half_even n (2 ^ Npos k)
  end.

(** The [p] low decimal digits of [k], most significant first. *)
Fixpoint frac_digits (p : nat) (k : N) : string :=
  match p with
  | O => ""
  | S p' => frac_digits p' (k / 10)%N ++ String (digit_char (k mod 10)%N) ""
  end.

Definition int_digits (q : N) : string :=
  NilZero.string_of_uint (N.to_uint q).

(** [n] read as a number with [p] decimals. *)
Definition unsigned_text (p : nat) (n : N) : string :=
  int_digits (n / 10 ^ N.of_nat p)%N ++
  match p with
  | O => ""
  | S _ => String "." (frac_digits p n)
  end.

Definition sign_text (s : bool) : string := if s then "-" else "".

(** What [%.Pf] writes for a double, before padding.  The type [float]
    has a single NaN and keeps no sign for it: the text is that of a NaN
    whose sign bit is clear. *)
Definition fixed_text (p : nat) (v : float) : string :=
  match Prim2SF v with
  | S754_nan => "nan"
  | S754_infinity s => sign_text s ++ "inf"
  | S754_zero s => sign_text s ++ unsigned_text p 0
  | S754_finite s m e => sign_text s ++ unsigned_text p (scaled p m e)
  end.

(** [%W.Pf]: the text, right-aligned in a field of at least [w]
    characters. *)
Definition fmt_f (w p : nat) (v : float) : string :=
  let body := fixed_text p v in
  spaces (w - String.length body) ++ body.

Fixpoint render (ds : list directive) (args : list float) : string :=
  match ds with
  | [] => ""
  | DChar c :: ds' => String c (render ds' args)
  | DFixed w p :: ds' =>
      match args with
      | v :: args' => fmt_f w p v ++ render ds' args'
      | [] => ""
      end
  end.

Definition format (fmt : string) (args : list float) : string :=
  match parse_format InText fmt with
  | Some ds => render ds args
  | None => ""
  end.

(** ** atof: text to double *)

(** The C library's [atof(s)] is [strtod(s, NULL)]: optional white
    space, an optional sign, then the longest prefix that is a decimal
    or hexadecimal floating constant, INF, INFINITY or NAN; the value is
    rounded to the nearest double, and zero is returned when no
    conversion can be performed. *)

Definition isspace (c : ascii) : bool :=
  ((c =? " ") || (("009" <=? c) && (c <=? "013")))%char.

Definition to_lower (c : ascii) : ascii :=
  if (("A" <=? c) && (c <=? "Z"))%char then ascii_of_N (N_of_ascii c + 32) else c.

Definition hex_val (c : ascii) : option N :=
  let l := to_lower c in
  if is_digit c then Some (digit_val c)
  else if (("a" <=? l) && (l <=? "f"))%char then Some (N_of_ascii l - 87)%N
  else None.

Fixpoint skip_space (s : string) : string :=
  match s with
  | String c r => if isspace c then skip_space r else s
  | EmptyString => s
  end.

(** Does [s] start with [p], letter case ignored? *)
Fixpoint prefix_ci (p s : string) : bool :=
  match p, s with
  | EmptyString, _ => true
  | String a p', String b s' => (to_lower a =? to_lower b)%char && prefix_ci p' s'
  | String _ _, EmptyString => false
  end.

(** A run of digits in base [base]: the value accumulated, the number of
    digits read and the text left. *)
Fixpoint read_digits (base : N) (s : string) (acc : N) (cnt : N) : N * N * string :=
  match s with
  | String c r =>
      match hex_val c with
      | Some d => if (d <? base)%N then read_digits base r (acc * base + d) (cnt + 1)
                  else (acc, cnt, s)
      | None => (acc, cnt, s)
      end
  | EmptyString => (acc, cnt, s)
  end.

(** An exponent part: the exponent letter is the caller's; here an
    optional sign and at least one decimal digit, else no exponent. *)
Definition read_exponent (s : string) : Z :=
  let '(neg, ds) :=
    match s with
    | String "-" r => (true, r)
    | String "+" r => (false, r)
    | _ => (false, s)
    end in
  let '(v, cnt, _) := read_digits 10 ds 0 0 in
  if (cnt =? 0)%N then 0%Z else if neg then (- Z.of_N v)%Z else Z.of_N v.

Definition exponent_after (letter : ascii) (s : string) : Z :=
  match s with
  | String c r => if (to_lower c =? letter)%char then read_exponent r else 0%Z
  | EmptyString => 0%Z
  end.

(** A mantissa [digits [. digits]] in base [base]: its digits as one
    integer, the number of digits after the point, the number of digits
    in all, and the text left. *)
Definition read_mantissa (base : N) (s : string) : N * N * N * string :=
  let '(i, ci, r) := read_digits base s 0 0 in
  match r with
  | String "." r' =>
      let '(m, cf, r'') := read_digits base r' i 0 in
      (m, cf, (ci + cf)%N, r'')
  | _ => (i, 0%N, ci, r)
  end.

(** The double nearest to ± [m * 10^e10]. *)
Definition of_decimal (neg : bool) (m : N) (e10 : Z) : float :=
  match m with
  | N0 => if neg then neg_zero else PrimFloat.zero
  | Npos p =>
      match e10 with
      | Zneg k =>
          SF2Prim (SF64div (S754_finite neg p 0) (S754_finite false (10 ^ k) 0))
      | _ =>
          SF2Prim (binary_normalize prec emax (cond_Zopp neg (Zpos p * 10 ^ e10)) 0 false)
      end
  end.

(** The double nearest to ± [m * 2^e2]. *)
Definition of_binary (neg : bool) (m : N) (e2 : Z) : float :=
  match m with
  | N0 => if neg then neg_zero else PrimFloat.zero
  | Npos p => SF2Prim (binary_normalize prec emax (cond_Zopp neg (Zpos p)) e2 false)
  end.

(** The subject sequence of [strtod], after white space and sign;
    [None] when there is none. *)
Definition parse_unsigned (neg : bool) (s : string) : option float :=
  if prefix_ci "inf" s then Some (if neg then neg_infinity else infinity)
  else if prefix_ci "nan" s then Some nan
  else
    let hex :=
      if prefix_ci "0x" s then
        let '(m, cf, cnt, r) := read_mantissa 16 (substring 2 (String.length s) s) in
        if (cnt =? 0)%N then None
        else Some (of_binary neg m (exponent_after "p" r - 4 * Z.of_N cf))
      else None in
    match hex with
    | Some v => Some v
    | None =>
        let '(m, cf, cnt, r) := read_mantissa 10 s in
        if (cnt =? 0)%N then None
        else Some (of_decimal neg m (exponent_after "e" r - Z.of_N cf))
    end.

Definition strtod (s : string) : option float :=
  match skip_space s with
  | String "-" r => parse_unsigned true r
  | String "+" r => parse_unsigned false r
  | r => parse_unsigned false r
  end.

Definition atof (s : string) : float :=
  match strtod s with
  | Some v => v
  | None => 0%float
  end.

(** ** The program *)

(** [const int stepLimit = 1000] *)
Definition stepLimit : Z := 1000.

(** [const double stepSize = 0.001]: the double nearest to 1/1000. *)
Definition stepSize : float := 0.001%float.

(** What the program changes as it runs: standard output, as the texts
    written by the calls of [printf] in order, and the static local
    [firstCall] of [writeExtrapolation]. *)
Record state : Type := mkState {
  stdout : list string;
  firstCall : bool
}.

(** The state when [main] is entered: [static bool firstCall = true]. *)
Definition initial : state := {| stdout := []; firstCall := true |}.

Definition printf (fmt : string) (args : list float) (st : state) : state :=
  {| stdout := stdout st ++ [format (C_str fmt) args]; firstCall := firstCall st |}.

Definition set_firstCall (v : bool) (st : state) : state :=
  {| stdout := stdout st; firstCall := v |}.

Definition header_line1 : string := "  x + h      approximation    f(x + h)     error\n".
Definition header_line2 : string := "------------------------------------------------\n".
Definition row_format : string := "%7.3f%19.3f%12.3f%10.3f\n".

(** [void writeExtrapolation(double xh, double approx, double direct)] *)
Definition writeExtrapolation (xh approx direct : float) (st : state) : state :=
  let st :=
    if firstCall st then
      let st := printf header_line1 [] st in
      let st := printf header_line2 [] st in
      set_firstCall false st
    else st in
  printf row_format [xh; approx; direct; (direct - approx)%float] st.

(** The body of the [for] loop of [main], [n] times: the loop counter
    [i] runs from 0 to [stepLimit - 1] and is used for nothing else. *)
Fixpoint iterate (n : nat) (a b c x h : float) (st : state) : state :=
  match n with
  | O => st
  | S n' =>
      let approximation := extrapolate a b c x h in
      let funcval := func a b c (x + h)%float in
      let st := writeExtrapolation (x + h)%float approximation funcval st in
      let h := (h + stepSize)%float in
      iterate n' a b c x h st
  end.

(** [int main(int argc, char** argv)]: [argv] holds the program name and
    the arguments, [argc] is its length; the result is the exit code and
    the final state. *)
Definition main (argv : list string) (st : state) : Z * state :=
  let argc := Z.of_nat (List.length argv) in
  if negb (argc =? 5)%Z then
    let st := printf "Invocation: q1 a b c x\n" [] st in
    let st := printf "   where a, b, and c are decimal values and a is not 0.\n" [] st in
    (1%Z, st)
  else
    let a := atof (nth 1 argv "") in
    let b := atof (nth 2 argv "") in
    let c := atof (nth 3 argv "") in
    let x := atof (nth 4 argv "") in
    if (a =? 0.0)%float then
      let st := printf "a must not be zero!\n" [] st in
      (2%Z, st)
    else
      let h := 0.0%float in
      let st := iterate (Z.to_nat stepLimit) a b c x h st in
      (0%Z, st).

(** The whole process: [main] from the initial state. *)
Definition run (argv : list string) : Z * state := main argv initial.

(** ** Vocabulary of the statements *)

(** The two header lines and a data row, as [printf] writes them. *)
Definition header : list string :=
  [format (C_str header_line1) []; format (C_str header_line2) []].

Definition row_text (xh approx direct : float) : string :=
  format (C_str row_format) [xh; approx; direct; (direct - approx)%float].

(** The row of the iteration at offset [h]. *)
Definition data_row (a b c x h : float) : string :=
  row_text (x + h)%float (extrapolate a b c x h) (func a b c (x + h)%float).

(** The offsets of [n] successive iterations, from [h] on. *)
Fixpoint offsets (n : nat) (h : float) : list float :=
  match n with
  | O => []
  | S n' => h :: offsets n' (h + stepSize)%float
  end.

(** A sequence of calls of the report writer. *)
Definition writeAll (calls : list (float * float * float)) (st : state) : state :=
  fold_left (fun st '(xh, approx, direct) => writeExtrapolation xh approx direct st)
            calls st.

Definition row_of (call : float * float * float) : string :=
  let '(xh, approx, direct) := call in row_text xh approx direct.

(** Classes of a [spec_float]. *)
Definition sf_finite (s : spec_float) : bool :=
  match s with
  | S754_zero _ | S754_finite _ _ _ => true
  | _ => false
  end.

Definition sf_nan (s : spec_float) : bool :=
  match s with
  | S754_nan => true
  | _ => false
  end.

(** The exact value of a finite double. *)
Definition exact_value (v : float) : Q :=
  match Prim2SF v with
  | S754_finite s m e =>
      (if s then -1 else 1) * inject_Z (Zpos m) * (2 ^ e)
  | _ => 0
  end.

Fixpoint all_digits (s : string) : bool :=
  match s with
  | EmptyString => true
  | String c r => is_digit c && all_digits r
  end.

(** The last character but one. *)
Fixpoint penultimate (s : string) : option ascii :=
  match s with
  | String c (String _ EmptyString) => Some c
  | String _ r => penultimate r
  | EmptyString => None
  end.

(** Text in which [strtod] finds no number: after white space and an
    optional sign comes neither a digit, nor a point and a digit, nor
    INF or NAN. *)
Definition starts_number (s : string) : bool :=
  prefix_ci "inf" s || prefix_ci "nan" s ||
  match s with
  | String "." (String d _) => is_digit d
  | String c _ => is_digit c
  | EmptyString => false
  end.

Definition drop_sign (s : string) : string :=
  match s with
  | String "-" r => r
  | String "+" r => r
  | _ => s
  end.

Definition malformed (s : string) : bool :=
  negb (starts_number (drop_sign (skip_space s))).

(** What [main] writes when it refuses to run. *)
Definition usage : list string :=
  [format (C_str "Invocation: q1 a b c x\n") [];
   format (C_str "   where a, b, and c are decimal values and a is not 0.\n") []].

Definition zero_message : string := format (C_str "a must not be zero!\n") [].

(** The calls of the report writer the loop makes at the offsets [hs]. *)
Definition calls_of (a b c x : float) (hs : list float) : list (float * float * float) :=
  map (fun h => ((x + h)%float, extrapolate a b c x h, func a b c (x + h)%float)) hs.

(** Is each element below (C's [<]) all the later ones? *)
Fixpoint ascending (l : list float) : bool :=
  match l with
  | [] => true
  | x :: r => forallb (fun y => (x <? y)%float) r && ascending r
  end.

(** Is [h] within [10^-15] of [i / 1000]? *)
Definition near_thousandth (ih : nat * float) : bool :=
  let '(i, h) := ih in
  Qle_bool (Qabs (exact_value h - inject_Z (Z.of_nat i) / 1000)) (1 # 1000000000000000).

(** The characters a conversion [%.3f] can end with: a digit, or the
    last letter of nan or inf. *)
Definition row_end (ch : ascii) : bool :=
  is_digit ch || (ch =? "n")%char || (ch =? "f")%char.

(** ** Vocabulary of the further properties *)

Definition sf_zero (s : spec_float) : bool :=
  match s with
  | S754_zero _ => true
  | _ => false
  end.

Definition sf_inf (s : spec_float) : bool :=
  match s with
  | S754_infinity _ => true
  | _ => false
  end.

Section Tangent.
Context {T : Type} `{Scalar T}.
Local Open Scope scalar_scope.

(** The tangent at [(x, f(x))] followed to [x + h]: what the comment
    above [extrapolate] describes, with the slope taken at [x]. *)
Definition tangent_at_base (a b c x h : T) : T :=
  func a b c x + h * funcPrime a b x.
End Tangent.

Fixpoint no_newline (s : string) : bool :=
  match s with
  | EmptyString => true
  | String c r => negb (c =? newline)%char && no_newline r
  end.

(** One line of text: a newline at the end and nowhere else. *)
Fixpoint is_line (s : string) : bool :=
  match s with
  | EmptyString => false
  | String c EmptyString => (c =? newline)%char
  | String c r => negb (c =? newline)%char && is_line r
  end.

(** Does [c] occur in [s]? *)
Fixpoint has_char (c : ascii) (s : string) : bool :=
  match s with
  | EmptyString => false
  | String d r => (d =? c)%char || has_char c r
  end.

(** A field of exactly [w] characters that holds, right-aligned, a
    fixed-point numeral with [p] decimals. *)
Definition fixed_field (w p : nat) (s : string) : Prop :=
  String.length s = w /\
  exists k neg ip fp,
    s = (spaces k ++ sign_text neg ++ ip ++ String "." fp)%string /\
    ip <> "" /\ all_digits ip = true /\
    all_digits fp = true /\ String.length fp = p.

(** A row of four such fields, of widths 7, 19, 12 and 10 with three
    decimals, and a newline. *)
Definition fixed_row (s : string) : Prop :=
  exists f1 f2 f3 f4,
    s = (f1 ++ f2 ++ f3 ++ f4 ++ String newline "")%string /\
    fixed_field 7 3 f1 /\ fixed_field 19 3 f2 /\
    fixed_field 12 3 f3 /\ fixed_field 10 3 f4.

(** * Properties *)

(** ** Exact arithmetic *)

Lemma func_Q (a b c p : Q) : func a b c p == a * p ^ 2 + b * p + c.
Proof. unfold func. simpl. ring. Qed.

Lemma funcPrime_Q (a b p : Q) : funcPrime a b p == 2 * a * p + b.
Proof. unfold funcPrime. simpl. ring. Qed.

(** The slope of the quadratic: its symmetric difference quotient at
    [p], whatever the constant coefficient and the step. *)
Lemma funcPrime_is_slope (a b c p d : Q) :
  ~ d == 0 ->
  (func a b c (p + d) - func a b c (p - d)) / (2 * d) == funcPrime a b p.
Proof. intros Hd. unfold funcPrime, func. simpl. field. exact Hd. Qed.

(** ** Binary64 arithmetic *)

Lemma SFcompare_refl (s : spec_float) :
  sf_nan s = false -> SFcompare s s = Some Eq.
Proof.
  destruct s as [[|]|[|]| |[|] m e]; simpl; try reflexivity; try discriminate; intros _.
  - rewrite Z.compare_refl. now rewrite Pos.compare_cont_refl.
  - rewrite Z.compare_refl. now rewrite Pos.compare_cont_refl.
Qed.

Lemma is_nan_SF (f : float) : is_nan f = sf_nan (Prim2SF f).
Proof.
  unfold is_nan. rewrite FloatAxioms.eqb_spec. unfold SFeqb.
  destruct (sf_nan (Prim2SF f)) eqn:E.
  - destruct (Prim2SF f); try discriminate. reflexivity.
  - now rewrite (SFcompare_refl _ E).
Qed.

Lemma is_finite_SF (f : float) : is_finite f = sf_finite (Prim2SF f).
Proof.
  unfold is_finite, is_infinity. rewrite is_nan_SF, FloatAxioms.eqb_spec, FloatAxioms.abs_spec.
  change (Prim2SF infinity) with (S754_infinity false).
  destruct (Prim2SF f) as [s|s| |s m e]; reflexivity.
Qed.

Section Rounding.
Variables prec emax : Z.

Lemma iter_pos_invariant {A : Type} (P : A -> Prop) (f : A -> A) :
  (forall x, P x -> P (f x)) -> forall n x, P x -> P (iter_pos f n x).
Proof.
  intros Hf n. induction n as [n IH|n IH|]; intros x Hx; simpl; auto.
Qed.

Lemma shr_1_nonneg (mrs : shr_record) :
  (0 <= shr_m mrs)%Z -> (0 <= shr_m (shr_1 mrs))%Z.
Proof.
  destruct mrs as [m r s]. simpl.
  destruct m as [|[p|p|]|[p|p|]]; simpl; lia.
Qed.

Lemma shr_nonneg (mrs : shr_record) (e n : Z) :
  (0 <= shr_m mrs)%Z -> (0 <= shr_m (fst (shr mrs e n)))%Z.
Proof.
  intros Hm. destruct n as [|p|p]; simpl; trivial.
  apply (iter_pos_invariant (fun r => (0 <= shr_m r)%Z)); trivial.
  exact shr_1_nonneg.
Qed.

Lemma shr_fexp_nonneg (m e : Z) (l : location) :
  (0 <= m)%Z -> (0 <= shr_m (fst (shr_fexp prec emax m e l)))%Z.
Proof.
  intros Hm. unfold shr_fexp. apply shr_nonneg.
  destruct l as [|[| |]]; exact Hm.
Qed.

Lemma round_nearest_even_nonneg (m : Z) (l : location) :
  (0 <= m)%Z -> (0 <= round_nearest_even m l)%Z.
Proof.
  intros Hm. destruct l as [|[| |]]; simpl; try lia.
  destruct (Z.even m); lia.
Qed.

Lemma binary_round_aux_not_nan (sx : bool) (mx ex : Z) (lx : location) :
  (0 <= mx)%Z -> sf_nan (binary_round_aux prec emax sx mx ex lx) = false.
Proof.
  intros Hm. unfold binary_round_aux.
  pose proof (shr_fexp_nonneg mx ex lx Hm) as H1.
  destruct (shr_fexp prec emax mx ex lx) as [mrs' e']. simpl in H1.
  pose proof (shr_fexp_nonneg
                (round_nearest_even (shr_m mrs') (loc_of_shr_record mrs')) e' loc_Exact
                (round_nearest_even_nonneg _ _ H1)) as H2.
  destruct (shr_fexp prec emax (round_nearest_even _ _) e' loc_Exact) as [mrs'' e''].
  simpl in H2.
  destruct (shr_m mrs'') as [|p|p]; try reflexivity.
  - destruct (e'' <=? emax - prec)%Z; reflexivity.
  - lia.
Qed.

Lemma binary_round_not_nan (sx : bool) (mx : positive) (ex : Z) :
  sf_nan (binary_round prec emax sx mx ex) = false.
Proof.
  unfold binary_round.
  destruct (shl_align mx ex _) as [mz ez].
  apply binary_round_aux_not_nan. lia.
Qed.

Lemma binary_normalize_not_nan (m e : Z) (szero : bool) :
  sf_nan (binary_normalize prec emax m e szero) = false.
Proof.
  destruct m; simpl; auto using binary_round_not_nan.
Qed.

(** Sums and products of finite numbers may overflow, not be NaN. *)
Lemma SFmul_finite_not_nan (x y : spec_float) :
  sf_finite x = true -> sf_finite y = true -> sf_nan (SFmul prec emax x y) = false.
Proof.
  destruct x, y; simpl; try discriminate; try reflexivity.
  intros _ _. apply binary_round_aux_not_nan. lia.
Qed.

Lemma SFadd_finite_not_nan (x y : spec_float) :
  sf_finite x = true -> sf_finite y = true -> sf_nan (SFadd prec emax x y) = false.
Proof.
  destruct x as [[|]| | |], y as [[|]| | |]; simpl; try discriminate; try reflexivity.
  intros _ _. apply binary_normalize_not_nan.
Qed.

Lemma SFadd_not_nan_finite (t y : spec_float) :
  sf_nan t = false -> sf_finite y = true -> sf_nan (SFadd prec emax t y) = false.
Proof.
  intros Ht Hy. destruct t as [s|s| |s m e]; try discriminate.
  - apply SFadd_finite_not_nan; trivial.
  - destruct y, s; try discriminate; reflexivity.
  - apply SFadd_finite_not_nan; trivial.
Qed.

Lemma SFmul_not_nan_nonzero (t : spec_float) (s : bool) (m : positive) (e : Z) :
  sf_nan t = false -> sf_nan (SFmul prec emax t (S754_finite s m e)) = false.
Proof.
  intros Ht. destruct t as [st|st| |st mt et]; try discriminate; try reflexivity.
  apply SFmul_finite_not_nan; reflexivity.
Qed.

Lemma SFmul_finite_zero (t : spec_float) (s : bool) :
  sf_finite t = true -> exists s', SFmul prec emax t (S754_zero s) = S754_zero s'.
Proof.
  destruct t; try discriminate; intros _; simpl; eauto.
Qed.

Lemma SFmul_zero_finite (t : spec_float) (s : bool) :
  sf_finite t = true -> exists s', SFmul prec emax (S754_zero s) t = S754_zero s'.
Proof.
  destruct t; try discriminate; intros _; simpl; eauto.
Qed.

Lemma SFadd_zero_finite (s : bool) (y : spec_float) :
  sf_finite y = true -> sf_finite (SFadd prec emax (S754_zero s) y) = true.
Proof.
  destruct y as [[|]| | |], s; try discriminate; reflexivity.
Qed.

(** Horner's scheme on finite inputs may overflow, not be NaN. *)
Lemma SF_horner_not_nan (A B C X : spec_float) :
  sf_finite A = true -> sf_finite B = true -> sf_finite C = true -> sf_finite X = true ->
  sf_nan (SFadd prec emax (SFmul prec emax (SFadd prec emax (SFmul prec emax A X) B) X) C) = false.
Proof.
  intros HA HB HC HX.
  destruct X as [s| | |s m e]; try discriminate.
  - destruct (SFmul_finite_zero A s HA) as [s1 ->].
    destruct (SFmul_finite_zero _ s (SFadd_zero_finite s1 B HB)) as [s2 ->].
    apply SFadd_finite_not_nan; trivial.
  - apply SFadd_not_nan_finite; trivial.
    apply SFmul_not_nan_nonzero.
    apply SFadd_not_nan_finite; trivial.
    apply SFmul_finite_not_nan; trivial.
Qed.

(** Adding a zero changes at most the sign of a zero. *)
Lemma SFadd_zero_r_eqb (F : spec_float) (s : bool) :
  sf_nan F = false -> SFeqb (SFadd prec emax F (S754_zero s)) F = true.
Proof.
  intros HF. destruct F as [[|]|[|]| |sf m e]; try discriminate; destruct s; try reflexivity.
  all: unfold SFeqb; simpl SFadd; now rewrite SFcompare_refl.
Qed.

(** Whether the slope is finite is the same at [x + 0] and at [x]. *)
Lemma SF_slope_add_zero (P X B : spec_float) :
  sf_finite X = true ->
  sf_finite (SFadd prec emax (SFmul prec emax P (SFadd prec emax X (S754_zero false))) B) =
  sf_finite (SFadd prec emax (SFmul prec emax P X) B).
Proof.
  intros HX.
  destruct X as [s| | |s m e]; try discriminate; [|reflexivity].
  destruct P as [[|]|[|]| |[|] mp ep], B as [[|]|[|]| |sb mb eb], s; reflexivity.
Qed.

(** Zero times an infinity or a NaN is a NaN, and so is any sum with it. *)
Lemma SFadd_zero_mul_not_finite (F S : spec_float) :
  sf_finite S = false ->
  SFeqb (SFadd prec emax F (SFmul prec emax (S754_zero false) S)) F = false.
Proof.
  destruct S as [s|s| |s m e]; try discriminate; intros _;
    destruct F as [[|]|[|]| |sf mf ef]; reflexivity.
Qed.
End Rounding.

Ltac to_spec :=
  repeat (rewrite FloatAxioms.add_spec || rewrite FloatAxioms.mul_spec
          || rewrite FloatAxioms.sub_spec);
  unfold SF64add, SF64mul, SF64sub.

Lemma func_double_not_nan (a b c x : float) :
  is_finite a = true -> is_finite b = true -> is_finite c = true -> is_finite x = true ->
  is_nan (func a b c x) = false.
Proof.
  rewrite !is_finite_SF, is_nan_SF. unfold func. simpl.
  to_spec. apply SF_horner_not_nan.
Qed.

(** ** The extrapolator *)

(** C1: [extrapolate a b c x h] is the value of the quadratic at [x]
    plus [h] times its slope at [x + h]; the slope is not taken at [x],
    where the tangent formula of the textbooks takes it. *)
Theorem extrapolate_spec :
  (forall a b c x h : float,
      extrapolate a b c x h = (func a b c x + h * funcPrime a b (x + h))%float) /\
  (exists a b c x h : float,
      extrapolate a b c x h <> (func a b c x + h * funcPrime a b x)%float).
Proof.
  split.
  - intros a b c x h. reflexivity.
  - exists 1%float, 0%float, 0%float, 0%float, 1%float.
    intros E. apply (f_equal Prim2SF) in E. vm_compute in E. discriminate E.
Qed.

(** C3, as the claim has it, fails on doubles: with [a = 1e308] the
    slope [2 a x + b] overflows, [0 * infinity] is NaN, and NaN equals
    nothing. *)
Lemma extrapolate_zero_offset_overflow :
  ~ (forall a b c x : float,
        is_finite a = true -> is_finite b = true ->
        is_finite c = true -> is_finite x = true ->
        (extrapolate a b c x 0 =? func a b c x)%float = true).
Proof.
  intros H.
  specialize (H 1e308%float 0%float 0%float 1%float eq_refl eq_refl eq_refl eq_refl).
  vm_compute in H. discriminate H.
Qed.

(** C3 (amended): for finite [a], [b], [c], [x] the extrapolation at
    offset zero equals ([==] of C) the value of the quadratic at [x]
    exactly when the slope at [x] is finite, that is when [2 a x + b]
    does not overflow. *)
Theorem extrapolate_zero_offset (a b c x : float) :
  is_finite a = true -> is_finite b = true -> is_finite c = true -> is_finite x = true ->
  (extrapolate a b c x 0 =? func a b c x)%float = is_finite (funcPrime a b x).
Proof.
  intros Ha Hb Hc Hx.
  pose proof (func_double_not_nan a b c x Ha Hb Hc Hx) as HF.
  change (extrapolate a b c x 0%float)
    with (func a b c x + 0 * funcPrime a b (x + 0))%float.
  rewrite is_nan_SF in HF. rewrite is_finite_SF in Hx.
  assert (Hs : sf_finite (Prim2SF (funcPrime a b (x + 0)%float)) =
               is_finite (funcPrime a b x)).
  { rewrite is_finite_SF. unfold funcPrime. simpl.
    to_spec. change (Prim2SF 0) with (S754_zero false).
    apply SF_slope_add_zero; trivial. }
  rewrite FloatAxioms.eqb_spec, FloatAxioms.add_spec, FloatAxioms.mul_spec.
  change (Prim2SF 0) with (S754_zero false).
  unfold SF64mul, SF64add.
  destruct (is_finite (funcPrime a b x)).
  - destruct (SFmul_zero_finite prec emax _ false Hs) as [s' ->].
    apply SFadd_zero_r_eqb; trivial.
  - apply SFadd_zero_mul_not_finite; trivial.
Qed.

Lemma extrapolate_zero_offset_witness :
  (extrapolate 1 2 3 5 0 =? func 1 2 3 5)%float = true.
Proof.
  rewrite (extrapolate_zero_offset 1 2 3 5 eq_refl eq_refl eq_refl eq_refl).
  reflexivity.
Defined.

(** ** The evaluators *)

(** C4: the quadratic evaluator follows Horner's rule, [(a p + b) p + c]
    with each operation rounded; in exact arithmetic that is
    [a p^2 + b p + c].  The order matters on doubles: the sum of the
    three monomials can round to another double. *)
Theorem func_horner :
  (forall a b c p : float, func a b c p = ((a * p + b) * p + c)%float) /\
  (forall a b c p : Q, func a b c p == a * p ^ 2 + b * p + c) /\
  (exists a b c p : float, func a b c p <> (a * p * p + b * p + c)%float).
Proof.
  split; [|split].
  - intros a b c p. reflexivity.
  - exact func_Q.
  - exists 0.1%float, 0.2%float, 0%float, 3%float.
    intros E. apply (f_equal Prim2SF) in E. vm_compute in E. discriminate E.
Qed.

(** C5: the derivative evaluator returns [2 a p + b], on doubles with
    each operation rounded; it takes no constant coefficient, and it is
    the slope of the quadratic at [p] for every constant coefficient
    [c]. *)
Theorem funcPrime_spec :
  (forall a b p : float, funcPrime a b p = (2 * a * p + b)%float) /\
  (forall a b p : Q, funcPrime a b p == 2 * a * p + b) /\
  (forall a b c p d : Q,
      ~ d == 0 ->
      (func a b c (p + d) - func a b c (p - d)) / (2 * d) == funcPrime a b p).
Proof.
  split; [|split].
  - intros a b p. reflexivity.
  - exact funcPrime_Q.
  - exact funcPrime_is_slope.
Qed.

Lemma funcPrime_spec_witness :
  (func 1 2 3 (5 + 1) - func 1 2 3 (5 - 1)) / (2 * 1) == funcPrime 1 2 5.
Proof.
  apply (proj2 (proj2 funcPrime_spec) 1 2 3 5 1). discriminate.
Defined.

(** ** Text *)

Lemma length_app (s t : string) :
  String.length (s ++ t) = (String.length s + String.length t)%nat.
Proof. induction s as [|c s IH]; simpl; congruence. Qed.

Lemma length_spaces (n : nat) : String.length (spaces n) = n.
Proof. induction n as [|n IH]; simpl; congruence. Qed.

Lemma all_digits_app (s t : string) :
  all_digits (s ++ t) = all_digits s && all_digits t.
Proof.
  induction s as [|c s IH]; simpl; trivial.
  now rewrite IH, andb_assoc.
Qed.

Lemma is_digit_digit_char (d : N) : (d < 10)%N -> is_digit (digit_char d) = true.
Proof.
  intros Hd.
  assert (E : In d [0; 1; 2; 3; 4; 5; 6; 7; 8; 9]%N).
  { simpl. lia. }
  simpl in E. decompose [or] E; subst; try reflexivity. contradiction.
Qed.

Lemma length_frac_digits (p : nat) (k : N) : String.length (frac_digits p k) = p.
Proof.
  revert k. induction p as [|p IH]; intros k; simpl; trivial.
  rewrite length_app, IH. simpl. lia.
Qed.

Lemma all_digits_frac_digits (p : nat) (k : N) : all_digits (frac_digits p k) = true.
Proof.
  revert k. induction p as [|p IH]; intros k; simpl; trivial.
  rewrite all_digits_app, IH. simpl.
  rewrite is_digit_digit_char; trivial.
  apply N.mod_lt. discriminate.
Qed.

Lemma all_digits_string_of_uint (d : Decimal.uint) :
  all_digits (NilEmpty.string_of_uint d) = true.
Proof. induction d; simpl; trivial. Qed.

Lemma all_digits_int_digits (q : N) : all_digits (int_digits q) = true.
Proof.
  unfold int_digits, NilZero.string_of_uint.
  destruct (N.to_uint q); try reflexivity; apply all_digits_string_of_uint.
Qed.

Lemma int_digits_nonempty (q : N) : int_digits q <> "".
Proof.
  unfold int_digits, NilZero.string_of_uint.
  destruct (N.to_uint q); discriminate.
Qed.

(** The syntax of a fixed-point numeral with [p] decimals. *)
Lemma unsigned_text_shape (p : nat) (n : N) :
  exists ip fp,
    unsigned_text (S p) n = (ip ++ String "." fp)%string /\
    ip <> "" /\ all_digits ip = true /\
    all_digits fp = true /\ String.length fp = S p.
Proof.
  exists (int_digits (n / 10 ^ N.of_nat (S p))), (frac_digits (S p) n).
  repeat split.
  - apply int_digits_nonempty.
  - apply all_digits_int_digits.
  - apply all_digits_frac_digits.
  - apply length_frac_digits.
Qed.

Lemma fixed_text_shape (p : nat) (v : float) :
  is_finite v = true ->
  exists neg ip fp,
    fixed_text (S p) v = (sign_text neg ++ ip ++ String "." fp)%string /\
    ip <> "" /\ all_digits ip = true /\
    all_digits fp = true /\ String.length fp = S p.
Proof.
  rewrite is_finite_SF. unfold fixed_text.
  destruct (Prim2SF v) as [s|s| |s m e]; try discriminate; intros _.
  - destruct (unsigned_text_shape p 0) as (ip & fp & E & H).
    exists s, ip, fp. now rewrite E.
  - destruct (unsigned_text_shape p (scaled (S p) m e)) as (ip & fp & E & H).
    exists s, ip, fp. now rewrite E.
Qed.

Lemma length_fmt_f (w p : nat) (v : float) :
  String.length (fmt_f w p v) = Nat.max w (String.length (fixed_text p v)).
Proof.
  unfold fmt_f. rewrite length_app, length_spaces. lia.
Qed.

Lemma row_format_directives :
  parse_format InText (C_str row_format) =
  Some [DFixed 7 3; DFixed 19 3; DFixed 12 3; DFixed 10 3; DChar newline].
Proof. reflexivity. Qed.

Lemma row_text_fields (xh approx direct : float) :
  row_text xh approx direct =
  (fmt_f 7 3 xh ++ fmt_f 19 3 approx ++ fmt_f 12 3 direct ++
   fmt_f 10 3 (direct - approx)%float ++ String newline "")%string.
Proof.
  unfold row_text, format. rewrite row_format_directives. reflexivity.
Qed.

(** C10: the last field of a row is the error, the true value minus the
    approximation; in exact arithmetic it is [- a h^2], with no [b], [c]
    or [x] in it. *)
Theorem error_exact :
  (forall a b c x h : float,
      data_row a b c x h =
      (fmt_f 7 3 (x + h)%float ++ fmt_f 19 3 (extrapolate a b c x h) ++
       fmt_f 12 3 (func a b c (x + h)%float) ++
       fmt_f 10 3 (row_error a b c x h) ++ String newline "")%string) /\
  (forall a b c x h : Q,
      row_error a b c x h == func a b c (x + h) - extrapolate a b c x h /\
      row_error a b c x h == - (a * h ^ 2)).
Proof.
  split.
  - intros a b c x h. unfold data_row. apply row_text_fields.
  - intros a b c x h. split.
    + reflexivity.
    + unfold row_error, extrapolate, funcPrime, func. simpl. ring.
Qed.

Lemma string_app_assoc (s t u : string) : ((s ++ t) ++ u = s ++ (t ++ u))%string.
Proof. induction s as [|c s IH]; simpl; congruence. Qed.

Lemma penultimate_app (s : string) (c d : ascii) :
  penultimate (s ++ String c (String d "")) = Some c.
Proof.
  induction s as [|a s IH]; trivial.
  destruct s as [|b [|b' s]]; trivial.
Qed.

Lemma fixed_text_last (p : nat) (v : float) :
  exists pre ch, fixed_text (S p) v = (pre ++ String ch "")%string /\ row_end ch = true.
Proof.
  assert (U : forall n, exists pre ch,
               unsigned_text (S p) n = (pre ++ String ch "")%string /\ row_end ch = true).
  { intros n. unfold unsigned_text. cbn [frac_digits].
    eexists (_ ++ String "." (frac_digits p (n / 10)))%string, _. split.
    - rewrite string_app_assoc. reflexivity.
    - unfold row_end. rewrite is_digit_digit_char; trivial.
      apply N.mod_lt. discriminate. }
  unfold fixed_text.
  destruct (Prim2SF v) as [s|s| |s m e].
  - destruct (U 0%N) as (pre & ch & E & H). exists (sign_text s ++ pre)%string, ch.
    now rewrite E, string_app_assoc.
  - exists (sign_text s ++ "in")%string, "f"%char. now rewrite string_app_assoc.
  - exists "na", "n"%char. split; reflexivity.
  - destruct (U (scaled (S p) m e)) as (pre & ch & E & H).
    exists (sign_text s ++ pre)%string, ch. now rewrite E, string_app_assoc.
Qed.

Lemma penultimate_row_text (xh approx direct : float) :
  exists ch, penultimate (row_text xh approx direct) = Some ch /\ row_end ch = true.
Proof.
  rewrite row_text_fields.
  destruct (fixed_text_last 2 (direct - approx)%float) as (pre & ch & E & H).
  exists ch. split; trivial.
  unfold fmt_f at 4. rewrite E.
  rewrite <- !string_app_assoc.
  rewrite (string_app_assoc _ (String ch "")). apply penultimate_app.
Qed.

(** No data row is a header line. *)
Lemma row_text_not_header (xh approx direct : float) :
  ~ In (row_text xh approx direct) header.
Proof.
  destruct (penultimate_row_text xh approx direct) as (ch & E & H).
  intros [E'|[E'|[]]]; rewrite <- E' in E; vm_compute in E;
    injection E as <-; discriminate H.
Qed.

(** ** The report writer *)

Lemma writeExtrapolation_spec (xh approx direct : float) (st : state) :
  writeExtrapolation xh approx direct st =
  {| stdout := stdout st ++ (if firstCall st then header else []) ++
               [row_text xh approx direct];
     firstCall := false |}.
Proof.
  destruct st as [out [|]]; unfold writeExtrapolation, printf, set_firstCall; simpl.
  - now rewrite <- !app_assoc.
  - reflexivity.
Qed.

Lemma writeAll_quiet (calls : list (float * float * float)) (st : state) :
  firstCall st = false ->
  writeAll calls st = {| stdout := stdout st ++ map row_of calls; firstCall := false |}.
Proof.
  revert st. induction calls as [|[[xh ap] di] calls IH]; intros [out fc] Hfc;
    simpl in Hfc; subst fc.
  - simpl. now rewrite app_nil_r.
  - unfold writeAll. cbn [fold_left]. rewrite writeExtrapolation_spec.
    fold (writeAll calls). rewrite IH by reflexivity.
    simpl. now rewrite <- app_assoc.
Qed.

Lemma writeAll_first (calls : list (float * float * float)) (st : state) :
  calls <> [] -> firstCall st = true ->
  writeAll calls st =
  {| stdout := stdout st ++ header ++ map row_of calls; firstCall := false |}.
Proof.
  destruct calls as [|[[xh ap] di] calls]; [congruence|]. intros _ Hfc.
  unfold writeAll. cbn [fold_left]. rewrite writeExtrapolation_spec, Hfc.
  fold (writeAll calls). rewrite writeAll_quiet by reflexivity.
  simpl. now rewrite <- !app_assoc.
Qed.

Lemma has_char_app (c : ascii) (s t : string) :
  has_char c (s ++ t) = has_char c s || has_char c t.
Proof.
  induction s as [|d s IH]; simpl; trivial.
  now rewrite IH, orb_assoc.
Qed.

Lemma fixed_field_has_point (w p : nat) (s : string) :
  fixed_field w p s -> has_char "." s = true.
Proof.
  intros (_ & k & neg & ip & fp & -> & _).
  rewrite !has_char_app. cbn [has_char]. rewrite Ascii.eqb_refl.
  cbn [orb]. now rewrite !orb_true_r.
Qed.

(** C9, as the claim has it, fails on two kinds of rows.  At position
    1000 (the first row of [q1 1 2 3 1000]) the numeral 1000.000 has
    eight characters and the row 50: the first field is wider than 7.
    With an infinite position (the first row of [q1 1 0 0 inf]) the
    fields read inf and nan: there is no fixed-point numeral in them. *)
Lemma row_layout_counterexample :
  ~ fixed_row (row_text 1000 1002003 1002003) /\
  ~ fixed_row (row_text infinity nan infinity).
Proof.
  split.
  - intros (f1 & f2 & f3 & f4 & E & (L1 & _) & (L2 & _) & (L3 & _) & (L4 & _)).
    apply (f_equal String.length) in E.
    rewrite !length_app, L1, L2, L3, L4 in E.
    vm_compute in E. discriminate E.
  - intros (f1 & f2 & f3 & f4 & E & F1 & _).
    apply (f_equal (has_char ".")) in E.
    rewrite has_char_app, (fixed_field_has_point _ _ _ F1) in E.
    vm_compute in E. discriminate E.
Qed.

(** C9 (amended): a data row is the conversions [%7.3f], [%19.3f],
    [%12.3f] and [%10.3f] of position, approximation, true value and
    error, then a newline.  Each conversion is right-aligned: blanks
    fill the field up to its width in front of the text, so that the
    field has its width when the text fits and the length of the text
    when that is longer.  A finite value is written in fixed point with
    three decimals; the text of an infinity or a NaN has no decimal
    point and at most four characters. *)
Theorem row_layout (xh approx direct : float) :
  (forall st, exists before,
      stdout (writeExtrapolation xh approx direct st) =
      before ++ [row_text xh approx direct]) /\
  parse_format InText (C_str row_format) =
    Some [DFixed 7 3; DFixed 19 3; DFixed 12 3; DFixed 10 3; DChar newline] /\
  row_text xh approx direct =
    (fmt_f 7 3 xh ++ fmt_f 19 3 approx ++ fmt_f 12 3 direct ++
     fmt_f 10 3 (direct - approx)%float ++ String newline "")%string /\
  (forall w v,
      fmt_f w 3 v =
        (spaces (w - String.length (fixed_text 3 v)) ++ fixed_text 3 v)%string /\
      String.length (fmt_f w 3 v) = Nat.max w (String.length (fixed_text 3 v)) /\
      ((String.length (fixed_text 3 v) <= w)%nat -> String.length (fmt_f w 3 v) = w) /\
      ((w <= String.length (fixed_text 3 v))%nat -> fmt_f w 3 v = fixed_text 3 v)) /\
  (forall v, is_finite v = true ->
      exists neg ip fp,
        fixed_text 3 v = (sign_text neg ++ ip ++ String "." fp)%string /\
        ip <> "" /\ all_digits ip = true /\
        all_digits fp = true /\ String.length fp = 3%nat) /\
  (forall v, is_finite v = false ->
      has_char "." (fixed_text 3 v) = false /\
      (String.length (fixed_text 3 v) <= 4)%nat).
Proof.
  split; [|split; [|split; [|split; [|split]]]].
  - intros st. rewrite writeExtrapolation_spec. cbn [stdout].
    exists (stdout st ++ (if firstCall st then header else [])).
    now rewrite app_assoc.
  - exact row_format_directives.
  - apply row_text_fields.
  - intros w v. split; [reflexivity|]. split; [apply length_fmt_f|]. split.
    + intros Hle. rewrite length_fmt_f. lia.
    + intros Hle. unfold fmt_f.
      replace (w - String.length (fixed_text 3 v))%nat with 0%nat by lia.
      reflexivity.
  - intros v Hv. apply fixed_text_shape. exact Hv.
  - intros v. rewrite is_finite_SF. unfold fixed_text.
    destruct (Prim2SF v) as [s|[|]| |s m e]; try discriminate; intros _;
      split; vm_compute; trivial; lia.
Qed.

Lemma row_layout_witness :
  exists neg ip fp,
    fixed_text 3 38%float = (sign_text neg ++ ip ++ String "." fp)%string /\
    ip <> "" /\ all_digits ip = true /\
    all_digits fp = true /\ String.length fp = 3%nat.
Proof.
  apply (proj1 (proj2 (proj2 (proj2 (proj2 (row_layout 5%float 38%float 38%float)))))).
  reflexivity.
Defined.

(** C6: in a run that writes at least one data row, standard output is
    the two header lines followed by the rows, one for each call of the
    report writer: each header line is written once.  The flag
    [firstCall] starts true and is false after the first call, so that
    further calls add rows only. *)
Theorem header_once (calls : list (float * float * float)) :
  calls <> [] ->
  firstCall initial = true /\
  stdout (writeAll calls initial) = header ++ map row_of calls /\
  firstCall (writeAll calls initial) = false /\
  (forall line, In line header ->
      count_occ string_dec (stdout (writeAll calls initial)) line = 1%nat) /\
  (forall more,
      stdout (writeAll more (writeAll calls initial)) =
      header ++ map row_of calls ++ map row_of more).
Proof.
  intros Hne.
  rewrite (writeAll_first calls initial Hne eq_refl).
  unfold initial. cbn [stdout firstCall app].
  split; [|split; [|split; [|split]]]; trivial.
  - intros line Hin. rewrite count_occ_app.
    replace (count_occ string_dec (map row_of calls) line) with 0%nat.
    + destruct Hin as [<-|[<-|[]]]; reflexivity.
    + symmetry. apply count_occ_not_In. intros Hrow.
      apply in_map_iff in Hrow as ([[xh ap] di] & <- & _).
      exact (row_text_not_header xh ap di Hin).
  - intros more. rewrite writeAll_quiet by reflexivity. cbn [stdout].
    now rewrite <- app_assoc.
Qed.

Lemma header_once_witness :
  stdout (writeAll [(5, 38, 38)%float] initial) =
  header ++ map row_of [(5, 38, 38)%float].
Proof.
  apply (header_once [(5, 38, 38)%float]). discriminate.
Defined.

(** ** atof on text without a number *)

Lemma read_digits_stop (c : ascii) (r : string) (acc cnt : N) :
  is_digit c = false ->
  read_digits 10 (String c r) acc cnt = (acc, cnt, String c r).
Proof.
  intros H. cbn [read_digits].
  destruct c as [[|] [|] [|] [|] [|] [|] [|] [|]]; try discriminate H; reflexivity.
Qed.

Lemma read_digits_go (c : ascii) (r : string) (acc cnt : N) :
  is_digit c = true ->
  read_digits 10 (String c r) acc cnt =
  read_digits 10 r (acc * 10 + digit_val c) (cnt + 1).
Proof.
  intros H. cbn [read_digits].
  destruct c as [[|] [|] [|] [|] [|] [|] [|] [|]]; try discriminate H; reflexivity.
Qed.

Lemma read_digits_count (base : N) (s : string) (acc cnt : N) :
  (cnt <= snd (fst (read_digits base s acc cnt)))%N.
Proof.
  revert acc cnt. induction s as [|c s IH]; intros acc cnt; cbn [read_digits].
  - simpl. lia.
  - destruct (hex_val c) as [d|]; [|simpl; lia].
    destruct (d <? base)%N; [|simpl; lia].
    etransitivity; [|apply IH]. lia.
Qed.

Lemma strtod_sign (s : string) :
  exists neg, strtod s = parse_unsigned neg (drop_sign (skip_space s)).
Proof.
  unfold strtod, drop_sign.
  destruct (skip_space s) as [|c r]; [now exists false|].
  destruct c as [[|] [|] [|] [|] [|] [|] [|] [|]];
    (now exists false) || (now exists true).
Qed.

Lemma prefix_0x_digit (s : string) :
  prefix_ci "0x" s = true -> exists r, s = String "0" r.
Proof.
  destruct s as [|c r]; [discriminate|]. cbn [prefix_ci]. intros H.
  apply andb_prop in H as [H _]. exists r. f_equal.
  destruct c as [[|] [|] [|] [|] [|] [|] [|] [|]]; try discriminate H; reflexivity.
Qed.

Lemma read_mantissa_none (s : string) :
  match s with
  | String "." (String d _) => is_digit d
  | String c _ => is_digit c
  | EmptyString => false
  end = false ->
  snd (fst (read_mantissa 10 s)) = 0%N.
Proof.
  intros H. unfold read_mantissa.
  destruct s as [|c r]; [reflexivity|].
  assert (Hc : is_digit c = false).
  { destruct c as [[|] [|] [|] [|] [|] [|] [|] [|]]; try reflexivity;
      try exact H; destruct r; exact H || reflexivity. }
  rewrite read_digits_stop by exact Hc.
  destruct c as [[|] [|] [|] [|] [|] [|] [|] [|]]; try reflexivity.
  destruct r as [|d r]; [reflexivity|].
  cbn in H. rewrite read_digits_stop by exact H. reflexivity.
Qed.

Lemma read_mantissa_some (s : string) :
  match s with
  | String "." (String d _) => is_digit d
  | String c _ => is_digit c
  | EmptyString => false
  end = true ->
  snd (fst (read_mantissa 10 s)) <> 0%N.
Proof.
  intros H. unfold read_mantissa.
  destruct s as [|c r]; [discriminate|].
  destruct (is_digit c) eqn:Hc.
  - rewrite read_digits_go by exact Hc.
    pose proof (read_digits_count 10 r (0 * 10 + digit_val c) (0 + 1)) as Hn.
    destruct (read_digits 10 r _ _) as [[i ci] r1]. cbn [fst snd] in Hn.
    destruct r1 as [|c1 r1]; [cbn; lia|].
    destruct c1 as [[|] [|] [|] [|] [|] [|] [|] [|]]; try (cbn [fst snd]; lia).
    destruct (read_digits 10 r1 i 0) as [[m cf] r2]. cbn [fst snd]. lia.
  - rewrite read_digits_stop by exact Hc.
    destruct c as [[|] [|] [|] [|] [|] [|] [|] [|]]; try discriminate H;
      try (destruct r; discriminate H).
    destruct r as [|d r]; [discriminate|]. cbn in H.
    rewrite read_digits_go by exact H.
    pose proof (read_digits_count 10 r (0 * 10 + digit_val d) (0 + 1)) as Hn.
    destruct (read_digits 10 r _ _) as [[m cf] r2]. cbn [fst snd] in *. lia.
Qed.

(** [strtod] converts nothing exactly on the texts [malformed] holds of. *)
Lemma strtod_none_iff (s : string) : strtod s = None <-> malformed s = true.
Proof.
  destruct (strtod_sign s) as [neg ->]. unfold malformed.
  generalize (drop_sign (skip_space s)). clear s. intros s.
  unfold parse_unsigned, starts_number.
  destruct (prefix_ci "inf" s); [split; discriminate|].
  destruct (prefix_ci "nan" s); [split; discriminate|].
  cbn [orb].
  set (d := match s with
            | String "." (String d _) => is_digit d
            | String c _ => is_digit c
            | EmptyString => false
            end).
  destruct d eqn:Hd; subst d.
  - cbn [negb]. split; [|discriminate]. intros H. exfalso.
    pose proof (read_mantissa_some s Hd) as Hm.
    destruct (prefix_ci "0x" s).
    + destruct (read_mantissa 16 _) as [[[m cf] cnt] r].
      destruct (cnt =? 0)%N; [|discriminate H].
      destruct (read_mantissa 10 s) as [[[m' cf'] cnt'] r']. cbn [fst snd] in Hm.
      apply N.eqb_neq in Hm. rewrite Hm in H. discriminate H.
    + destruct (read_mantissa 10 s) as [[[m' cf'] cnt'] r']. cbn [fst snd] in Hm.
      apply N.eqb_neq in Hm. rewrite Hm in H. discriminate H.
  - cbn [negb]. split; [reflexivity|]. intros _.
    pose proof (read_mantissa_none s Hd) as Hm.
    destruct (prefix_ci "0x" s) eqn:Hx.
    + apply prefix_0x_digit in Hx as [r ->]. discriminate Hd.
    + destruct (read_mantissa 10 s) as [[[m' cf'] cnt'] r']. cbn [fst snd] in Hm.
      subst cnt'. reflexivity.
Qed.

Lemma atof_malformed (s : string) : malformed s = true -> atof s = 0%float.
Proof.
  intros H. apply strtod_none_iff in H. unfold atof. now rewrite H.
Qed.

(** ** The driver *)

Lemma iterate_writeAll (n : nat) (a b c x h : float) (st : state) :
  iterate n a b c x h st = writeAll (calls_of a b c x (offsets n h)) st.
Proof.
  revert h st. induction n as [|n IH]; intros h st; trivial.
  cbn [iterate offsets]. rewrite IH. reflexivity.
Qed.

Lemma rows_of_calls (a b c x : float) (hs : list float) :
  map row_of (calls_of a b c x hs) = map (data_row a b c x) hs.
Proof. unfold calls_of. rewrite map_map. reflexivity. Qed.

Lemma length_offsets (n : nat) (h : float) : List.length (offsets n h) = n.
Proof. revert h. induction n as [|n IH]; intros h; simpl; auto. Qed.

Lemma offsets_step (n i : nat) (h d : float) :
  (S i < n)%nat ->
  nth (S i) (offsets n h) d = (nth i (offsets n h) d + stepSize)%float.
Proof.
  revert i h. induction n as [|n IH]; intros i h Hi; [lia|].
  destruct i as [|i].
  - destruct n as [|n]; [lia|]. reflexivity.
  - cbn [offsets nth]. apply IH. lia.
Qed.

Lemma ascending_sorted (l : list float) :
  ascending l = true -> StronglySorted (fun x y => (x <? y)%float = true) l.
Proof.
  induction l as [|x l IH]; intros H; constructor.
  - apply IH. cbn [ascending] in H. now apply andb_prop in H.
  - cbn [ascending] in H. apply andb_prop in H as [H _].
    apply Forall_forall. intros y Hy. exact (proj1 (forallb_forall _ _) H y Hy).
Qed.

Lemma offsets_ascending : ascending (offsets (Z.to_nat stepLimit) 0%float) = true.
Proof. vm_compute. reflexivity. Qed.

Lemma offsets_printed :
  map (fixed_text 3) (offsets (Z.to_nat stepLimit) 0%float) =
  map (fun i => unsigned_text 3 (N.of_nat i)) (seq 0 1000).
Proof. vm_compute. reflexivity. Qed.

Lemma offsets_near :
  forallb near_thousandth (combine (seq 0 1000) (offsets (Z.to_nat stepLimit) 0%float)) = true.
Proof. vm_compute. reflexivity. Qed.

Lemma main_wrong_count (argv : list string) (st : state) :
  List.length argv <> 5%nat ->
  main argv st = (1%Z, {| stdout := stdout st ++ usage; firstCall := firstCall st |}).
Proof.
  intros H. unfold main.
  destruct (Z.of_nat (List.length argv) =? 5)%Z eqn:E.
  - apply Z.eqb_eq in E. lia.
  - cbn [negb]. unfold printf. cbn [stdout firstCall].
    now rewrite <- app_assoc.
Qed.

Lemma main_zero (argv : list string) (st : state) :
  List.length argv = 5%nat ->
  (atof (nth 1 argv "") =? 0)%float = true ->
  main argv st = (2%Z, {| stdout := stdout st ++ [zero_message]; firstCall := firstCall st |}).
Proof.
  intros H Hz. unfold main. rewrite H. cbn [Z.of_nat Pos.of_succ_nat Pos.succ Z.eqb Pos.eqb negb].
  rewrite Hz. reflexivity.
Qed.

Lemma main_table (argv : list string) (st : state) :
  List.length argv = 5%nat ->
  (atof (nth 1 argv "") =? 0)%float = false ->
  main argv st =
  (0%Z, writeAll (calls_of (atof (nth 1 argv "")) (atof (nth 2 argv ""))
                           (atof (nth 3 argv "")) (atof (nth 4 argv ""))
                           (offsets (Z.to_nat stepLimit) 0%float)) st).
Proof.
  intros H Hz. unfold main. rewrite H. cbn [Z.of_nat Pos.of_succ_nat Pos.succ Z.eqb Pos.eqb negb].
  rewrite Hz. rewrite iterate_writeAll. reflexivity.
Qed.

(** C7: with a number of arguments other than four (the program name
    not counted) the program writes the two lines of its usage message,
    and nothing else, and exits with code 1. *)
Theorem wrong_argument_count (argv : list string) :
  List.length argv <> 5%nat ->
  run argv = (1%Z, {| stdout := usage; firstCall := true |}).
Proof.
  intros H. unfold run. rewrite main_wrong_count by exact H. reflexivity.
Qed.

Lemma wrong_argument_count_witness :
  run ["q1"; "1"; "2"; "3"] = (1%Z, {| stdout := usage; firstCall := true |}) /\
  run ["q1"; "1"; "2"; "3"; "5"; "8"] = (1%Z, {| stdout := usage; firstCall := true |}).
Proof.
  split; apply wrong_argument_count; discriminate.
Defined.

(** C8: with four arguments the exit code is 2 exactly when the leading
    coefficient compares equal to zero ([==] of C: no tolerance, each
    nonzero double passes); the program then writes its error message and
    nothing else.  Text in which [atof] finds no number is converted to
    zero and ends there too. *)
Theorem zero_leading_coefficient (argv : list string) :
  List.length argv = 5%nat ->
  (fst (run argv) = 2%Z <-> (atof (nth 1 argv "") =? 0)%float = true) /\
  ((atof (nth 1 argv "") =? 0)%float = true ->
   run argv = (2%Z, {| stdout := [zero_message]; firstCall := true |})) /\
  (malformed (nth 1 argv "") = true ->
   atof (nth 1 argv "") = 0%float /\
   run argv = (2%Z, {| stdout := [zero_message]; firstCall := true |})).
Proof.
  intros H.
  assert (Z : (atof (nth 1 argv "") =? 0)%float = true ->
              run argv = (2%Z, {| stdout := [zero_message]; firstCall := true |})).
  { intros Hz. unfold run. rewrite main_zero by assumption. reflexivity. }
  split; [|split].
  - split.
    + intros E. destruct (atof (nth 1 argv "") =? 0)%float eqn:Hz; trivial.
      unfold run in E. rewrite main_table in E by assumption. discriminate E.
    + intros Hz. now rewrite Z.
  - exact Z.
  - intros Hm. apply atof_malformed in Hm. split; trivial.
    apply Z. now rewrite Hm.
Qed.

Lemma zero_leading_coefficient_witness :
  run ["q1"; "0"; "1"; "1"; "1"] =
    (2%Z, {| stdout := [zero_message]; firstCall := true |}) /\
  run ["q1"; "one"; "1"; "1"; "1"] =
    (2%Z, {| stdout := [zero_message]; firstCall := true |}).
Proof.
  split.
  - apply (proj1 (proj2 (zero_leading_coefficient ["q1"; "0"; "1"; "1"; "1"] eq_refl))).
    reflexivity.
  - apply (proj2 (proj2 (zero_leading_coefficient ["q1"; "one"; "1"; "1"; "1"] eq_refl))).
    reflexivity.
Defined.

(** C2: with four arguments and a leading coefficient that does not
    compare equal to zero, the program exits with code 0, having written
    the header and 1000 data rows, one for each offset in the order of
    the iterations.  The offsets start at 0 and each is the one before
    plus 0.001; they increase strictly, read 0.000, 0.001, ..., 0.999 to
    three decimals, and are within [10^-15] of these values. *)
Theorem successful_run (argv : list string) :
  List.length argv = 5%nat ->
  (atof (nth 1 argv "") =? 0)%float = false ->
  let a := atof (nth 1 argv "") in
  let b := atof (nth 2 argv "") in
  let c := atof (nth 3 argv "") in
  let x := atof (nth 4 argv "") in
  let hs := offsets (Z.to_nat stepLimit) 0%float in
  run argv =
    (0%Z, {| stdout := header ++ map (data_row a b c x) hs; firstCall := false |}) /\
  List.length hs = 1000%nat /\
  nth 0 hs 0%float = 0%float /\
  (forall i, (S i < 1000)%nat ->
      nth (S i) hs 0%float = (nth i hs 0%float + stepSize)%float) /\
  StronglySorted (fun h h' => (h <? h')%float = true) hs /\
  map (fixed_text 3) hs = map (fun i => unsigned_text 3 (N.of_nat i)) (seq 0 1000) /\
  Forall (fun ih => Qabs (exact_value (snd ih) - inject_Z (Z.of_nat (fst ih)) / 1000)
                    <= 1 # 1000000000000000)
         (combine (seq 0 1000) hs).
Proof.
  intros H Hz a b c x hs.
  split; [|split; [|split; [|split; [|split; [|split]]]]].
  - unfold run. rewrite main_table by assumption.
    rewrite writeAll_first; [|discriminate|reflexivity].
    rewrite rows_of_calls. reflexivity.
  - apply length_offsets.
  - reflexivity.
  - intros i Hi. apply offsets_step. exact Hi.
  - apply ascending_sorted. exact offsets_ascending.
  - exact offsets_printed.
  - apply Forall_forall. intros [i h] Hin.
    pose proof (proj1 (forallb_forall _ _) offsets_near (i, h) Hin) as Hn.
    apply Qle_bool_iff in Hn. exact Hn.
Qed.

Lemma successful_run_witness :
  fst (run ["q1"; "1"; "2"; "3"; "5"]) = 0%Z.
Proof.
  rewrite (proj1 (successful_run ["q1"; "1"; "2"; "3"; "5"] eq_refl eq_refl)).
  reflexivity.
Defined.

(** ** The program on the inputs of its documentation *)

Example header_text :
  header = [C_str "  x + h      approximation    f(x + h)     error\n";
            C_str "------------------------------------------------\n"].
Proof. reflexivity. Qed.

Example func_1_2_3_at_5 : func 1%float 2%float 3%float 5%float = 38%float.
Proof. reflexivity. Qed.

(** [q1 1 2 3 5]: the first row, at [h = 0], and the last one. *)
Example run_1_2_3_5 :
  let '(code, st) := run ["q1"; "1"; "2"; "3"; "5"] in
  code = 0%Z /\
  List.length (stdout st) = 1002%nat /\
  nth 2 (stdout st) "" = C_str "  5.000             38.000      38.000     0.000\n" /\
  nth 1001 (stdout st) "" = C_str "  5.999             51.984      50.986    -0.998\n".
Proof. vm_compute. repeat split. Qed.

(** [q1 1 0 0 0]: the rows at [h = 0] and [h = 0.001]. *)
Example run_1_0_0_0 :
  let '(code, st) := run ["q1"; "1"; "0"; "0"; "0"] in
  code = 0%Z /\
  nth 2 (stdout st) "" = C_str "  0.000              0.000       0.000     0.000\n" /\
  nth 3 (stdout st) "" = C_str "  0.001              0.000       0.000    -0.000\n".
Proof. vm_compute. repeat split. Qed.

(** [atof] converts the longest numeric prefix: text that starts with a
    number is not [malformed], whatever follows. *)
Example atof_prefix : atof "1abc" = 1%float /\ malformed "1abc" = false.
Proof. split; reflexivity. Qed.

(** The smallest positive double is not zero: the run goes on. *)
Example run_tiny : fst (run ["q1"; "5e-324"; "0"; "0"; "0"]) = 0%Z.
Proof. vm_compute. reflexivity. Qed.

(** The offsets accumulate rounding: the one of the tenth iteration is
    not the double nearest to 0.009. *)
Example offset_9_inexact :
  nth 9 (offsets (Z.to_nat stepLimit) 0%float) 0%float <> 0.009%float.
Proof.
  intros E. apply (f_equal Prim2SF) in E. vm_compute in E. discriminate E.
Qed.

(** * Further properties *)

(** ** Special values in the arithmetic functions *)

Lemma is_zero_SF (f : float) : is_zero f = sf_zero (Prim2SF f).
Proof.
  unfold is_zero. rewrite FloatAxioms.eqb_spec.
  change (Prim2SF PrimFloat.zero) with (S754_zero false).
  destruct (Prim2SF f) as [s|[|]| |[|] m e]; reflexivity.
Qed.

Lemma is_infinity_SF (f : float) : is_infinity f = sf_inf (Prim2SF f).
Proof.
  unfold is_infinity. rewrite FloatAxioms.eqb_spec, FloatAxioms.abs_spec.
  change (Prim2SF infinity) with (S754_infinity false).
  destruct (Prim2SF f) as [s|s| |s m e]; reflexivity.
Qed.

Section Special.
Variables prec emax : Z.

Lemma SFmul_nan_l (x y : spec_float) :
  sf_nan x = true -> sf_nan (SFmul prec emax x y) = true.
Proof. destruct x; try discriminate. reflexivity. Qed.

Lemma SFmul_nan_r (x y : spec_float) :
  sf_nan y = true -> sf_nan (SFmul prec emax x y) = true.
Proof. destruct y; try discriminate. destruct x; reflexivity. Qed.

Lemma SFadd_nan_l (x y : spec_float) :
  sf_nan x = true -> sf_nan (SFadd prec emax x y) = true.
Proof. destruct x; try discriminate. reflexivity. Qed.

Lemma SFadd_nan_r (x y : spec_float) :
  sf_nan y = true -> sf_nan (SFadd prec emax x y) = true.
Proof. destruct y; try discriminate. destruct x; reflexivity. Qed.

Lemma SFsub_nan_l (x y : spec_float) :
  sf_nan x = true -> sf_nan (SFsub prec emax x y) = true.
Proof. destruct x; try discriminate. reflexivity. Qed.

Lemma SFsub_nan_r (x y : spec_float) :
  sf_nan y = true -> sf_nan (SFsub prec emax x y) = true.
Proof. destruct y; try discriminate. destruct x; reflexivity. Qed.

(** The slope [P * X + B] for a product [P = 2 a] that is not NaN. *)
Lemma SF_slope_nan (P X B : spec_float) :
  sf_nan P = false -> sf_finite X = true -> sf_finite B = true ->
  sf_nan (SFadd prec emax (SFmul prec emax P X) B) = sf_inf P && sf_zero X.
Proof.
  intros HP HX HB.
  destruct P as [sp|sp| |sp mp ep]; try discriminate.
  - cbn [sf_inf andb]. apply SFadd_finite_not_nan; trivial.
    destruct X; try discriminate; reflexivity.
  - destruct X as [s| | |s m e]; try discriminate.
    + reflexivity.
    + destruct B as [sb| | |sb mb eb]; try discriminate; reflexivity.
  - cbn [sf_inf andb]. apply SFadd_not_nan_finite; trivial.
    apply SFmul_finite_not_nan; trivial.
Qed.

(** Horner's scheme at a zero: the constant coefficient, up to the sign
    of a zero. *)
Lemma SF_horner_at_zero (A B C : spec_float) (s : bool) :
  sf_finite A = true -> sf_finite B = true -> sf_finite C = true ->
  exists s',
    SFadd prec emax (SFmul prec emax (SFadd prec emax (SFmul prec emax A (S754_zero s)) B)
                           (S754_zero s)) C =
    SFadd prec emax (S754_zero s') C.
Proof.
  intros HA HB HC.
  destruct (SFmul_finite_zero prec emax A s HA) as [s1 ->].
  destruct (SFmul_finite_zero prec emax _ s (SFadd_zero_finite prec emax s1 B HB)) as [s2 ->].
  now exists s2.
Qed.

Lemma SFadd_zero_l_eqb (C : spec_float) (s : bool) :
  sf_finite C = true -> SFeqb (SFadd prec emax (S754_zero s) C) C = true.
Proof.
  intros HC. destruct C as [[|]| | |sc m e]; try discriminate; destruct s; try reflexivity.
  all: unfold SFeqb; simpl SFadd; now rewrite SFcompare_refl.
Qed.
End Special.

Lemma func_nan (a b c x : float) :
  is_nan a || is_nan b || is_nan c || is_nan x = true ->
  is_nan (func a b c x) = true.
Proof.
  rewrite !is_nan_SF. unfold func. simpl. to_spec. intros E.
  repeat (apply orb_prop in E as [E|E]);
    auto 6 using SFadd_nan_l, SFadd_nan_r, SFmul_nan_l, SFmul_nan_r.
Qed.

Lemma funcPrime_nan (a b x : float) :
  is_nan a || is_nan b || is_nan x = true ->
  is_nan (funcPrime a b x) = true.
Proof.
  rewrite !is_nan_SF. unfold funcPrime. simpl. to_spec. intros E.
  repeat (apply orb_prop in E as [E|E]);
    auto 6 using SFadd_nan_l, SFadd_nan_r, SFmul_nan_l, SFmul_nan_r.
Qed.

Lemma extrapolate_nan (a b c x h : float) :
  is_nan a || is_nan b || is_nan c || is_nan x || is_nan h = true ->
  is_nan (extrapolate a b c x h) = true.
Proof.
  intros E. apply orb_prop in E as [E|E].
  - pose proof (func_nan a b c x E) as F. revert F. rewrite !is_nan_SF.
    change (extrapolate a b c x h)
      with (func a b c x + h * funcPrime a b (x + h))%float.
    rewrite FloatAxioms.add_spec. apply SFadd_nan_l.
  - revert E. rewrite !is_nan_SF.
    change (extrapolate a b c x h)
      with (func a b c x + h * funcPrime a b (x + h))%float.
    rewrite FloatAxioms.add_spec, FloatAxioms.mul_spec. intros E.
    apply SFadd_nan_r, SFmul_nan_l, E.
Qed.

Lemma row_error_nan (a b c x h : float) :
  is_nan (extrapolate a b c x h) = true -> is_nan (row_error a b c x h) = true.
Proof.
  change (row_error a b c x h)
    with (func a b c (x + h) - extrapolate a b c x h)%float.
  rewrite !is_nan_SF, FloatAxioms.sub_spec. apply SFsub_nan_r.
Qed.

(** X1: a NaN among the arguments comes out as a NaN: the functions do
    not test for it and every operation hands it on. *)
Theorem nan_propagates (a b c x h : float) :
  (is_nan a || is_nan b || is_nan c || is_nan x = true ->
   is_nan (func a b c x) = true) /\
  (is_nan a || is_nan b || is_nan x = true ->
   is_nan (funcPrime a b x) = true) /\
  (is_nan a || is_nan b || is_nan c || is_nan x || is_nan h = true ->
   is_nan (extrapolate a b c x h) = true).
Proof.
  split; [|split].
  - apply func_nan.
  - apply funcPrime_nan.
  - apply extrapolate_nan.
Qed.

Lemma nan_propagates_witness :
  is_nan (extrapolate 1 2 nan 5 0.5)%float = true.
Proof.
  apply (proj2 (proj2 (nan_propagates 1 2 nan 5 0.5)%float)). reflexivity.
Defined.

(** X2: on finite arguments the quadratic evaluator may overflow to an
    infinity, and returns no NaN. *)
Theorem func_finite_arguments (a b c x : float) :
  is_finite a = true -> is_finite b = true -> is_finite c = true -> is_finite x = true ->
  is_nan (func a b c x) = false /\
  (is_finite (func a b c x) = false -> is_infinity (func a b c x) = true).
Proof.
  intros Ha Hb Hc Hx.
  pose proof (func_double_not_nan a b c x Ha Hb Hc Hx) as HF.
  split; [exact HF|].
  unfold is_finite. rewrite HF. cbn [orb]. intros E.
  now apply negb_false_iff in E.
Qed.

Lemma func_finite_arguments_witness :
  is_nan (func 1e308 1e308 0 1e308)%float = false.
Proof.
  apply (func_finite_arguments 1e308 1e308 0 1e308)%float; reflexivity.
Defined.

(** X3: on finite arguments the derivative evaluator returns NaN in one
    case only: [2 a] overflows and [x] is a zero (infinity times zero). *)
Theorem funcPrime_finite_arguments (a b x : float) :
  is_finite a = true -> is_finite b = true -> is_finite x = true ->
  is_nan (funcPrime a b x) = is_infinity (2 * a)%float && is_zero x.
Proof.
  rewrite !is_finite_SF, is_nan_SF, is_infinity_SF, is_zero_SF.
  unfold funcPrime. simpl. to_spec. intros Ha Hb Hx.
  apply SF_slope_nan; trivial.
  apply SFmul_finite_not_nan; trivial.
Qed.

Lemma funcPrime_finite_arguments_witness :
  is_nan (funcPrime 1e308 1 0)%float = true.
Proof.
  rewrite (funcPrime_finite_arguments 1e308 1 0)%float; reflexivity.
Defined.

(** X4: at [x = 0] (of either sign) the quadratic evaluator returns the
    constant coefficient, for finite coefficients: equal as C's [==]
    has it, a zero result may differ from [c] in sign. *)
Theorem func_at_zero (a b c x : float) :
  is_finite a = true -> is_finite b = true -> is_finite c = true -> is_zero x = true ->
  (func a b c x =? c)%float = true.
Proof.
  rewrite !is_finite_SF, is_zero_SF, FloatAxioms.eqb_spec.
  unfold func. simpl. to_spec. intros Ha Hb Hc Hx.
  destruct (Prim2SF x) as [s| | |]; try discriminate.
  destruct (SF_horner_at_zero prec emax _ _ (Prim2SF c) s Ha Hb Hc) as [s' ->].
  apply SFadd_zero_l_eqb; trivial.
Qed.

Lemma func_at_zero_witness : (func 1 2 3 (-0) =? 3)%float = true.
Proof. apply func_at_zero; reflexivity. Defined.

(** X5: at [x = 0] the derivative evaluator returns [b], for finite [a]
    and [b], provided [2 a] does not overflow. *)
Theorem funcPrime_at_zero (a b x : float) :
  is_finite (2 * a)%float = true -> is_finite b = true -> is_zero x = true ->
  (funcPrime a b x =? b)%float = true.
Proof.
  rewrite !is_finite_SF, is_zero_SF, FloatAxioms.eqb_spec.
  unfold funcPrime. simpl. to_spec. intros Ha Hb Hx.
  destruct (Prim2SF x) as [s| | |]; try discriminate.
  destruct (SFmul_finite_zero prec emax _ s Ha) as [s' ->].
  apply SFadd_zero_l_eqb; trivial.
Qed.

Lemma funcPrime_at_zero_witness : (funcPrime 1 2 0 =? 2)%float = true.
Proof. apply funcPrime_at_zero; reflexivity. Defined.

Section FirstRow.
Variables prec emax : Z.

Lemma SFsub_diag_finite (s : bool) (m : positive) (e : Z) :
  SFsub prec emax (S754_finite s m e) (S754_finite s m e) = S754_zero false.
Proof. cbn [SFsub]. now rewrite Z.sub_diag. Qed.

(** The true value less the approximation, when the approximation is the
    true value plus a zero. *)
Lemma SFsub_add_zero (F' F : spec_float) (s : bool) :
  sf_finite F = true ->
  F' = F \/ (sf_zero F' = true /\ sf_zero F = true) ->
  SFeqb (SFsub prec emax F' (SFadd prec emax F (S754_zero s))) (S754_zero false) = true.
Proof.
  intros HF [->|[HZ' HZ]].
  - destruct F as [[|]| | |sf m e]; try discriminate.
    + destruct s; reflexivity.
    + destruct s; reflexivity.
    + cbn [SFadd]. now rewrite SFsub_diag_finite.
  - destruct F' as [[|]| | |]; try discriminate;
      destruct F as [[|]| | |]; try discriminate; destruct s; reflexivity.
Qed.
End FirstRow.

Lemma add_zero_nonzero (x : float) :
  is_finite x = true -> is_zero x = false -> (x + 0)%float = x.
Proof.
  rewrite is_finite_SF, is_zero_SF. intros Hf Hz.
  apply Prim2SF_inj. rewrite FloatAxioms.add_spec.
  change (Prim2SF 0) with (S754_zero false).
  destruct (Prim2SF x) as [s| | |s m e]; try discriminate. reflexivity.
Qed.

(** X6: the row at offset zero shows the base point as its position,
    and an error equal to zero, for finite arguments at which neither
    the value of the quadratic nor its slope overflows (equalities as
    C's [==] has them). *)
Theorem first_row (a b c x : float) :
  is_finite a = true -> is_finite b = true -> is_finite c = true -> is_finite x = true ->
  is_finite (func a b c x) = true ->
  is_finite (funcPrime a b x) = true ->
  (x + 0 =? x)%float = true /\
  (row_error a b c x 0 =? 0)%float = true.
Proof.
  intros Ha Hb Hc Hx HF HS. split.
  { rewrite FloatAxioms.eqb_spec, FloatAxioms.add_spec.
    change (Prim2SF 0) with (S754_zero false).
    apply SFadd_zero_r_eqb. rewrite is_finite_SF in Hx.
    destruct (Prim2SF x); try discriminate; reflexivity. }
  change (row_error a b c x 0%float)
    with (func a b c (x + 0) - (func a b c x + 0 * funcPrime a b (x + 0)))%float.
  assert (HS' : sf_finite (Prim2SF (funcPrime a b (x + 0)%float)) = true).
  { rewrite <- HS, is_finite_SF. unfold funcPrime. simpl.
    to_spec. change (Prim2SF 0) with (S754_zero false).
    apply SF_slope_add_zero. now rewrite <- is_finite_SF. }
  rewrite FloatAxioms.eqb_spec, FloatAxioms.sub_spec, FloatAxioms.add_spec,
    FloatAxioms.mul_spec.
  change (Prim2SF 0) with (S754_zero false).
  unfold SF64sub, SF64add, SF64mul.
  destruct (SFmul_zero_finite prec emax _ false HS') as [s' ->].
  apply SFsub_add_zero; [now rewrite <- is_finite_SF|].
  destruct (is_zero x) eqn:Hz.
  - rewrite is_zero_SF in Hz. rewrite !is_finite_SF in *.
    unfold func. simpl. to_spec. change (Prim2SF 0) with (S754_zero false).
    destruct (Prim2SF x) as [s| | |]; try discriminate.
    replace (SFadd prec emax (S754_zero s) (S754_zero false)) with (S754_zero false)
      by (destruct s; reflexivity).
    destruct (SF_horner_at_zero prec emax _ _ (Prim2SF c) s Ha Hb Hc) as [s1 ->].
    destruct (SF_horner_at_zero prec emax _ _ (Prim2SF c) false Ha Hb Hc) as [s2 ->].
    destruct (Prim2SF c) as [[|]| | |sc mc ec]; try discriminate.
    + right. destruct s1, s2; split; reflexivity.
    + right. destruct s1, s2; split; reflexivity.
    + left. reflexivity.
  - left. now rewrite add_zero_nonzero.
Qed.

Lemma first_row_witness : (row_error 1 2 3 5 0 =? 0)%float = true.
Proof. apply (first_row 1 2 3 5); reflexivity. Defined.

(** ** The approximation in exact arithmetic *)

Lemma row_error_Q (a b c x h : Q) : row_error a b c x h == - (a * (h * h)).
Proof. unfold row_error, extrapolate, funcPrime, func. simpl. ring. Qed.

Lemma Qsquare_pos (h : Q) : ~ h == 0 -> 0 < h * h.
Proof.
  intros Hh. destruct (Qlt_le_dec 0 h) as [Hp|Hn].
  - apply Qmult_lt_0_compat; exact Hp.
  - assert (Hlt : h < 0).
    { apply Qle_lteq in Hn as [Hn|Hn]; [exact Hn|contradiction]. }
    setoid_replace (h * h) with ((- h) * (- h)) by ring.
    apply Qmult_lt_0_compat; apply (proj1 (Qlt_minus_iff h 0)) in Hlt;
      now rewrite Qplus_0_l in Hlt.
Qed.

(** X7: in exact arithmetic the approximation is exact only for a
    vanishing leading coefficient or a zero offset; otherwise it lies
    above the true value for [a > 0] and below it for [a < 0]. *)
Theorem error_sign (a b c x h : Q) :
  (row_error a b c x h == 0 <-> a == 0 \/ h == 0) /\
  (0 < a -> ~ h == 0 -> func a b c (x + h) < extrapolate a b c x h) /\
  (a < 0 -> ~ h == 0 -> extrapolate a b c x h < func a b c (x + h)).
Proof.
  pose proof (row_error_Q a b c x h) as E.
  split; [|split].
  - rewrite E. split.
    + intros H0.
      assert (H1 : a * (h * h) == 0).
      { rewrite <- (Qopp_involutive (a * (h * h))), H0. reflexivity. }
      apply Qmult_integral in H1 as [H1|H1]; [now left|].
      apply Qmult_integral in H1 as [H1|H1]; now right.
    + intros [H0|H0]; rewrite H0; ring.
  - intros Ha Hh. pose proof (Qsquare_pos h Hh) as Hp.
    pose proof (Qmult_lt_0_compat _ _ Ha Hp) as Hm.
    apply (proj2 (Qlt_minus_iff _ _)).
    setoid_replace (extrapolate a b c x h + - func a b c (x + h))
      with (- row_error a b c x h) by (unfold row_error; simpl; ring).
    rewrite E, Qopp_involutive. exact Hm.
  - intros Ha Hh. pose proof (Qsquare_pos h Hh) as Hp.
    apply (proj1 (Qlt_minus_iff _ _)) in Ha. rewrite Qplus_0_l in Ha.
    pose proof (Qmult_lt_0_compat _ _ Ha Hp) as Hm.
    apply (proj2 (Qlt_minus_iff _ _)).
    setoid_replace (func a b c (x + h) + - extrapolate a b c x h)
      with (row_error a b c x h) by (unfold row_error; simpl; ring).
    rewrite E. setoid_replace (- (a * (h * h))) with (- a * (h * h)) by ring.
    exact Hm.
Qed.

Lemma error_sign_witness : func 1 2 3 (5 + 1) < extrapolate 1 2 3 5 1.
Proof.
  apply (proj1 (proj2 (error_sign 1 2 3 5 1))); [reflexivity | discriminate].
Defined.

(** X8: in exact arithmetic the result of [extrapolate] is the tangent
    at [(x, f(x))], of which the comment above it speaks, plus
    [2 a h^2]: it misses the true value by as much as that tangent
    does, on the other side. *)
Theorem extrapolate_vs_tangent (a b c x h : Q) :
  extrapolate a b c x h == tangent_at_base a b c x h + 2 * a * h ^ 2 /\
  extrapolate a b c x h - func a b c (x + h) ==
  func a b c (x + h) - tangent_at_base a b c x h.
Proof.
  unfold extrapolate, tangent_at_base, funcPrime, func. simpl. split; ring.
Qed.

(** ** Lines of output *)

Lemma no_newline_app (s t : string) :
  no_newline (s ++ t) = no_newline s && no_newline t.
Proof.
  induction s as [|c s IH]; simpl; trivial.
  now rewrite IH, andb_assoc.
Qed.

Lemma no_newline_spaces (n : nat) : no_newline (spaces n) = true.
Proof. induction n as [|n IH]; simpl; trivial. Qed.

Lemma digit_not_newline (c : ascii) :
  is_digit c = true -> (c =? newline)%char = false.
Proof.
  destruct c as [[|] [|] [|] [|] [|] [|] [|] [|]]; try discriminate; reflexivity.
Qed.

Lemma all_digits_no_newline (s : string) :
  all_digits s = true -> no_newline s = true.
Proof.
  induction s as [|c s IH]; simpl; trivial.
  intros H. apply andb_prop in H as [Hc Hs].
  now rewrite (digit_not_newline c Hc), IH.
Qed.

Lemma no_newline_unsigned_text (p : nat) (n : N) :
  no_newline (unsigned_text p n) = true.
Proof.
  unfold unsigned_text. rewrite no_newline_app.
  rewrite (all_digits_no_newline _ (all_digits_int_digits _)).
  destruct p as [|p]; trivial.
  cbn [andb no_newline]. cbn -[frac_digits].
  apply all_digits_no_newline, all_digits_frac_digits.
Qed.

Lemma no_newline_fixed_text (p : nat) (v : float) :
  no_newline (fixed_text p v) = true.
Proof.
  unfold fixed_text.
  destruct (Prim2SF v) as [s|s| |s m e]; rewrite ?no_newline_app;
    rewrite ?no_newline_unsigned_text; try (destruct s; reflexivity); reflexivity.
Qed.

Lemma no_newline_fmt_f (w p : nat) (v : float) : no_newline (fmt_f w p v) = true.
Proof.
  unfold fmt_f. now rewrite no_newline_app, no_newline_spaces, no_newline_fixed_text.
Qed.

Lemma is_line_app (s : string) :
  no_newline s = true -> is_line (s ++ String newline "") = true.
Proof.
  induction s as [|c s IH]; trivial.
  cbn [no_newline]. intros H. apply andb_prop in H as [Hc Hs].
  cbn [append is_line]. rewrite Hc, (IH Hs).
  destruct (s ++ String newline "")%string eqn:E; trivial.
  destruct s; discriminate E.
Qed.

Lemma row_is_line_aux (xh approx direct : float) :
  is_line (row_text xh approx direct) = true.
Proof.
  rewrite row_text_fields, <- !string_app_assoc. apply is_line_app.
  now rewrite !no_newline_app, !no_newline_fmt_f.
Qed.

(** X9: whatever the three values, infinities and NaN included, a data
    row is one line: a newline ends it and it holds no other.  Its
    length is the sum of the four field widths, each widened to its
    numeral when that is longer, so at least the 48 characters of a
    header line. *)
Theorem row_is_line (xh approx direct : float) :
  is_line (row_text xh approx direct) = true /\
  String.length (row_text xh approx direct) =
    (Nat.max 7 (String.length (fixed_text 3 xh)) +
     Nat.max 19 (String.length (fixed_text 3 approx)) +
     Nat.max 12 (String.length (fixed_text 3 direct)) +
     Nat.max 10 (String.length (fixed_text 3 (direct - approx)%float)) + 1)%nat /\
  (String.length (C_str header_line1) <= String.length (row_text xh approx direct))%nat.
Proof.
  rewrite row_text_fields.
  assert (L : String.length
                (fmt_f 7 3 xh ++ fmt_f 19 3 approx ++ fmt_f 12 3 direct ++
                 fmt_f 10 3 (direct - approx)%float ++ String newline "")%string =
              (Nat.max 7 (String.length (fixed_text 3 xh)) +
               Nat.max 19 (String.length (fixed_text 3 approx)) +
               Nat.max 12 (String.length (fixed_text 3 direct)) +
               Nat.max 10 (String.length (fixed_text 3 (direct - approx)%float)) + 1)%nat).
  { rewrite !length_app, !length_fmt_f. cbn [String.length]. lia. }
  split; [|split].
  - rewrite <- row_text_fields. apply row_is_line_aux.
  - exact L.
  - rewrite L. change (String.length (C_str header_line1)) with 49%nat. lia.
Qed.

(** ** Outcomes of a run *)

Lemma rows_are_lines (calls : list (float * float * float)) :
  Forall (fun w => is_line w = true) (map row_of calls).
Proof.
  apply Forall_forall. intros w Hw.
  apply in_map_iff in Hw as ([[xh ap] di] & <- & _).
  apply row_is_line_aux.
Qed.

(** X10: from any state, [main] adds complete lines to standard output
    and changes nothing written before.  There are three outcomes:
    code 1 exactly when the arguments are not four, with the two lines
    of the usage message; code 2 exactly when they are four and the
    leading coefficient equals zero, with the one line of the error
    message; code 0 otherwise, with the 1000 rows of the offsets in
    order, after the two header lines if [firstCall] was still true, and
    [firstCall] false afterwards. *)
Theorem main_outcome (argv : list string) (st : state) :
  let a := atof (nth 1 argv "") in
  let b := atof (nth 2 argv "") in
  let c := atof (nth 3 argv "") in
  let x := atof (nth 4 argv "") in
  let hs := offsets (Z.to_nat stepLimit) 0%float in
  exists added,
    stdout (snd (main argv st)) = stdout st ++ added /\
    Forall (fun w => is_line w = true) added /\
    (fst (main argv st) = 1%Z <-> List.length argv <> 5%nat) /\
    (fst (main argv st) = 2%Z <->
     List.length argv = 5%nat /\ (a =? 0)%float = true) /\
    (fst (main argv st) = 0%Z <->
     List.length argv = 5%nat /\ (a =? 0)%float = false) /\
    ((fst (main argv st) = 1%Z /\ added = usage /\
      List.length added = 2%nat /\ firstCall (snd (main argv st)) = firstCall st) \/
     (fst (main argv st) = 2%Z /\ added = [zero_message] /\
      List.length added = 1%nat /\ firstCall (snd (main argv st)) = firstCall st) \/
     (fst (main argv st) = 0%Z /\
      added = (if firstCall st then header else []) ++ map (data_row a b c x) hs /\
      List.length added = (if firstCall st then 1002 else 1000)%nat /\
      firstCall (snd (main argv st)) = false)).
Proof.
  intros a b c x hs.
  destruct (Nat.eq_dec (List.length argv) 5) as [H5|H5].
  - destruct (atof (nth 1 argv "") =? 0)%float eqn:Hz.
    + rewrite (main_zero argv st H5 Hz). cbn [fst snd stdout firstCall].
      exists [zero_message]. fold a in Hz. rewrite Hz.
      split; [reflexivity|]. split; [repeat constructor|].
      split; [split; [discriminate | contradiction]|].
      split; [split; [tauto | reflexivity]|].
      split; [split; [discriminate | intros [_ E]; discriminate E]|].
      right. left. repeat split.
    + rewrite (main_table argv st H5 Hz). cbn [fst snd].
      fold a b c x hs. fold a in Hz. rewrite Hz.
      assert (Hn : List.length (map (data_row a b c x) hs) = 1000%nat).
      { unfold hs. now rewrite length_map, length_offsets. }
      assert (Hne : calls_of a b c x hs <> []).
      { intros E. apply (f_equal (@List.length _)) in E.
        unfold calls_of in E. rewrite length_map in E. unfold hs in E.
        rewrite length_offsets in E. discriminate E. }
      assert (Hl : Forall (fun w => is_line w = true) (map (data_row a b c x) hs)).
      { rewrite <- rows_of_calls. apply rows_are_lines. }
      exists ((if firstCall st then header else []) ++ map (data_row a b c x) hs).
      split; [|split; [|split; [|split; [|split]]]].
      * destruct (firstCall st) eqn:Hf.
        -- rewrite (writeAll_first _ st Hne Hf). cbn [stdout].
           now rewrite rows_of_calls.
        -- rewrite (writeAll_quiet _ st Hf). cbn [stdout app].
           now rewrite rows_of_calls.
      * apply Forall_app. split; [|exact Hl].
        destruct (firstCall st); repeat constructor.
      * split; [discriminate | contradiction].
      * split; [discriminate | intros [_ E]; discriminate E].
      * split; [tauto | reflexivity].
      * right. right. split; [reflexivity|]. split; [reflexivity|]. split.
        -- rewrite List.length_app, Hn. destruct (firstCall st); reflexivity.
        -- destruct (firstCall st) eqn:Hf.
           ++ now rewrite (writeAll_first _ st Hne Hf).
           ++ now rewrite (writeAll_quiet _ st Hf).
  - rewrite (main_wrong_count argv st H5). cbn [fst snd stdout firstCall].
    exists usage.
    split; [reflexivity|]. split; [repeat constructor|].
    split; [tauto|].
    split; [split; [discriminate | intros [E _]; contradiction]|].
    split; [split; [discriminate | intros [E _]; contradiction]|].
    left. repeat split.
Qed.

(** X11: the exit code depends on the number of arguments and on the
    text of the first one only: the other three are not checked. *)
Theorem exit_code_first_argument (argv argv' : list string) (st st' : state) :
  List.length argv = List.length argv' ->
  nth 1 argv "" = nth 1 argv' "" ->
  fst (main argv st) = fst (main argv' st').
Proof.
  intros Hl H1. unfold main. rewrite <- Hl, <- H1.
  destruct (negb (Z.of_nat (List.length argv) =? 5)%Z); [reflexivity|].
  destruct (atof (nth 1 argv "") =? 0)%float; reflexivity.
Qed.

Lemma exit_code_first_argument_witness :
  fst (main ["q1"; "1"; "2"; "3"; "5"] initial) =
  fst (main ["q1"; "1"; "two"; "nan"; "1e999"] initial).
Proof. apply exit_code_first_argument; reflexivity. Defined.

Lemma nan_not_zero (a : float) : is_nan a = true -> (a =? 0)%float = false.
Proof.
  rewrite is_nan_SF, FloatAxioms.eqb_spec.
  destruct (Prim2SF a); try discriminate. reflexivity.
Qed.

(** X12: a leading coefficient that is NaN is not refused, since NaN
    does not equal zero: the run ends with code 0 after 1000 rows, in
    each of which approximation, true value and error are NaN. *)
Theorem nan_coefficient (argv : list string) :
  List.length argv = 5%nat ->
  is_nan (atof (nth 1 argv "")) = true ->
  let a := atof (nth 1 argv "") in
  let b := atof (nth 2 argv "") in
  let c := atof (nth 3 argv "") in
  let x := atof (nth 4 argv "") in
  run argv =
    (0%Z, {| stdout := header ++ map (data_row a b c x) (offsets (Z.to_nat stepLimit) 0%float);
             firstCall := false |}) /\
  forall h,
    is_nan (extrapolate a b c x h) = true /\
    is_nan (func a b c (x + h)%float) = true /\
    is_nan (row_error a b c x h) = true.
Proof.
  intros H5 Hn a b c x. split.
  - unfold run. rewrite main_table by (trivial; now apply nan_not_zero).
    rewrite writeAll_first; [|discriminate|reflexivity].
    rewrite rows_of_calls. reflexivity.
  - intros h.
    assert (E : is_nan (extrapolate a b c x h) = true).
    { apply extrapolate_nan. fold a in Hn. now rewrite Hn. }
    split; [exact E|]. split.
    + apply func_nan. fold a in Hn. now rewrite Hn.
    + apply row_error_nan, E.
Qed.

Lemma nan_coefficient_witness : fst (run ["q1"; "nan"; "2"; "3"; "5"]) = 0%Z.
Proof.
  rewrite (proj1 (nan_coefficient ["q1"; "nan"; "2"; "3"; "5"] eq_refl eq_refl)).
  reflexivity.
Defined.

(** X13: text in which [atof] finds no number, given for [b], [c] or
    [x], does not stop the program: the run uses zero in its place. *)
Theorem unparsed_argument_is_zero (argv : list string) (i : nat) :
  List.length argv = 5%nat ->
  (atof (nth 1 argv "") =? 0)%float = false ->
  (2 <= i <= 4)%nat ->
  malformed (nth i argv "") = true ->
  let v := fun j => if Nat.eqb j i then 0%float else atof (nth j argv "") in
  run argv =
    (0%Z, {| stdout := header ++ map (data_row (v 1%nat) (v 2%nat) (v 3%nat) (v 4%nat))
                                     (offsets (Z.to_nat stepLimit) 0%float);
             firstCall := false |}).
Proof.
  intros H5 Hz Hi Hm v.
  apply atof_malformed in Hm.
  unfold run. rewrite main_table by assumption.
  rewrite writeAll_first; [|discriminate|reflexivity].
  rewrite rows_of_calls. unfold v.
  assert (C : i = 2%nat \/ i = 3%nat \/ i = 4%nat) by lia.
  destruct C as [E|[E|E]]; subst i; cbn [Nat.eqb]; now rewrite Hm.
Qed.

Lemma unparsed_argument_is_zero_witness :
  fst (run ["q1"; "1"; "two"; "3"; "5"]) = 0%Z.
Proof.
  rewrite (unparsed_argument_is_zero ["q1"; "1"; "two"; "3"; "5"] 2 eq_refl eq_refl);
    [reflexivity | lia | reflexivity].
Defined.

(** X14: the loop splits: [n + m] iterations are [n] iterations followed
    by [m] more, started at the offset the first [n] have reached. *)
Theorem iterate_split (n m : nat) (a b c x h : float) (st : state) :
  iterate (n + m) a b c x h st =
  iterate m a b c x (Nat.iter n (fun h => (h + stepSize)%float) h)
          (iterate n a b c x h st).
Proof.
  revert h st. induction n as [|n IH]; intros h st; [reflexivity|].
  rewrite Nat.iter_succ_r. cbn [Nat.add iterate]. apply IH.
Qed.
